(** * sc2reader.objects

    A shallow embedding of [sc2reader/objects.py], the domain objects of a
    parsed StarCraft II replay: depot files, teams, lobby attributes,
    persons, players and score-screen graphs.  The module is Python 2 code:
    [str] is a byte string, [unicode] is a sequence of code points, and
    every attribute access, dictionary lookup and codec call can raise. *)

From Stdlib Require Import ZArith Ascii String Permutation.
From stdpp Require Import base option list strings pretty sorting gmap.

(** ** Exceptions and outcomes *)

(** The exceptions this module lets escape, with the argument Python gives
    them. *)
Inductive exn : Type :=
  | AttributeError (msg : string)
  | TypeError (msg : string)
  | ValueError (msg : string)
  | KeyError (key : string)
  | UnicodeDecodeError (codec : string)
  | UnicodeEncodeError (codec : string).

(** What evaluating an expression ends in: a value, an exception, or
    [Stuck], where the embedding stops: a location that is not allocated
    (Python has no dangling reference) or an operation on a value whose
    behaviour is left outside the embedding. *)
Inductive outcome (A : Type) : Type :=
  | Return (a : A)
  | Raise (e : exn)
  | Stuck.
Arguments Return {A} a.
Arguments Raise {A} e.
Arguments Stuck {A}.

Global Instance outcome_ret : MRet outcome := λ A a, Return a.
Global Instance outcome_bind : MBind outcome := λ A B f m,
  match m with
  | Return a => f a
  | Raise e => Raise e
  | Stuck => Stuck
  end.
Global Instance outcome_fmap : FMap outcome := λ A B f m,
  match m with
  | Return a => Return (f a)
  | Raise e => Raise e
  | Stuck => Stuck
  end.

(** [for x in xs: f x], collecting the results; the first exception ends
    the loop. *)
Fixpoint for_each {A B} (f : A → outcome B) (xs : list A) : outcome (list B) :=
  match xs with
  | [] => Return []
  | x :: xs' => y ← f x; ys ← for_each f xs'; Return (y :: ys)
  end.

(** ** Python 2 strings *)

(** A [str] is a byte string, Rocq's [string]; a [unicode] is a list of
    code points. *)
Abbreviation unicode := (list Z).

Definition str_bytes (s : string) : list Z :=
  (λ c, Z.of_N (N_of_ascii c)) <$> list_ascii_of_string s.

Global Instance byte_value_inj : Inj (=) (=) (λ c, Z.of_N (N_of_ascii c)).
Proof.
  intros c1 c2 H%N2Z.inj.
  by rewrite <-(ascii_N_embedding c1), <-(ascii_N_embedding c2), H.
Qed.

(** [s[start:stop]] for non-negative bounds; [stop = None] is [s[start:]].
    A slice never raises: bounds beyond the end are clipped. *)
Definition str_slice (s : string) (start : nat) (stop : option nat) : string :=
  let l := drop start (list_ascii_of_string s) in
  string_of_list_ascii
    (match stop with
     | Some e => take (e - start) l
     | None => l
     end).

(** [strip], [lstrip] and [rstrip] with an explicit set of characters:
    [lstrip] drops the longest prefix made of them, [rstrip] the longest
    such suffix, [strip] both. *)
Fixpoint list_lstrip {A} `{EqDecision A} (chars l : list A) : list A :=
  match l with
  | [] => []
  | c :: l' => if bool_decide (c ∈ chars) then list_lstrip chars l' else l
  end.
Definition list_rstrip {A} `{EqDecision A} (chars l : list A) : list A :=
  reverse (list_lstrip chars (reverse l)).
Definition list_strip {A} `{EqDecision A} (chars l : list A) : list A :=
  list_rstrip chars (list_lstrip chars l).

Definition str_strip (s chars : string) : string :=
  string_of_list_ascii
    (list_strip (list_ascii_of_string chars) (list_ascii_of_string s)).
Definition str_rstrip (s chars : string) : string :=
  string_of_list_ascii
    (list_rstrip (list_ascii_of_string chars) (list_ascii_of_string s)).
Definition unicode_strip (u : unicode) (chars : string) : unicode :=
  list_strip (str_bytes chars) u.

(** The literal ['\x00 '] both constructors strip with. *)
Definition padding : string := String "000" " ".

(** [only_of chars s]: [s] is made of characters of [chars];
    [trimmed chars s]: [s] neither starts nor ends with one. *)
Definition only_of (chars s : string) : bool :=
  forallb (λ c, bool_decide (c ∈ list_ascii_of_string chars))
    (list_ascii_of_string s).
Definition trimmed (chars s : string) : bool :=
  let l := list_ascii_of_string s in
  match head l, last l with
  | Some a, Some b =>
      negb (bool_decide (a ∈ list_ascii_of_string chars))
      && negb (bool_decide (b ∈ list_ascii_of_string chars))
  | _, _ => true
  end.
Definition is_ascii (s : string) : bool :=
  forallb (λ b, bool_decide (b < 128)%Z) (str_bytes s).
Definition comma_free (s : string) : bool :=
  forallb (λ c, negb (bool_decide (c = ","%char))) (list_ascii_of_string s).

(** A string that is not empty and holds no comma. *)
Definition url_like (u : string) : Prop := u ≠ "" ∧ comma_free u = true.

(** [s[::-1]] *)
Definition str_reverse (s : string) : string :=
  string_of_list_ascii (reverse (list_ascii_of_string s)).

(** [sep.join(l)] *)
Fixpoint str_join (sep : string) (l : list string) : string :=
  match l with
  | [] => ""
  | [s] => s
  | s :: l' => s +:+ sep +:+ str_join sep l'
  end.

(** [sorted(l)] on byte strings: the order is the lexicographic one on byte
    values, which is total and antisymmetric, so the sorted list does not
    depend on the sorting algorithm. *)
Definition sorted (l : list string) : list string := merge_sort String.le l.

(** [s.encode('hex')]: two lowercase digits per byte. *)
Definition hex_digit (n : N) : ascii :=
  match n with
  | 0 => "0" | 1 => "1" | 2 => "2" | 3 => "3" | 4 => "4" | 5 => "5"
  | 6 => "6" | 7 => "7" | 8 => "8" | 9 => "9" | 10 => "a" | 11 => "b"
  | 12 => "c" | 13 => "d" | 14 => "e" | _ => "f"
  end%N%char.
Fixpoint str_encode_hex (s : string) : string :=
  match s with
  | "" => ""
  | String c s' =>
      String (hex_digit (N_of_ascii c / 16))
        (String (hex_digit (N_of_ascii c mod 16)) (str_encode_hex s'))
  end.

(** [s.decode('utf-8')] with the strict error handler, as CPython 2.7
    decodes: sequences of one to four bytes, no overlong form, nothing
    above U+10FFFF; encoded surrogates are accepted. *)
Definition is_continuation (b : Z) : bool := bool_decide (Z.land b 0xC0 = 0x80)%Z.
Definition low6 (b : Z) : Z := Z.land b 0x3F.

Fixpoint utf8_decode (bs : list Z) : option unicode :=
  match bs with
  | [] => Some []
  | b0 :: r =>
      if decide (b0 < 0x80)%Z then (b0 ::.) <$> utf8_decode r
      else if decide (b0 < 0xC2)%Z then None
      else if decide (b0 < 0xE0)%Z then
        match r with
        | b1 :: r' =>
            if is_continuation b1
            then (Z.lor (Z.shiftl (Z.land b0 0x1F) 6) (low6 b1) ::.)
                   <$> utf8_decode r'
            else None
        | _ => None
        end
      else if decide (b0 < 0xF0)%Z then
        match r with
        | b1 :: b2 :: r' =>
            if is_continuation b1 && is_continuation b2
               && negb (bool_decide (b0 = 0xE0 ∧ b1 < 0xA0)%Z)
            then (Z.lor (Z.shiftl (Z.land b0 0x0F) 12)
                    (Z.lor (Z.shiftl (low6 b1) 6) (low6 b2)) ::.)
                   <$> utf8_decode r'
            else None
        | _ => None
        end
      else if decide (b0 < 0xF5)%Z then
        match r with
        | b1 :: b2 :: b3 :: r' =>
            if is_continuation b1 && is_continuation b2 && is_continuation b3
               && negb (bool_decide (b0 = 0xF0 ∧ b1 < 0x90)%Z)
               && negb (bool_decide (b0 = 0xF4 ∧ 0x90 ≤ b1)%Z)
            then (Z.lor (Z.shiftl (Z.land b0 0x07) 18)
                    (Z.lor (Z.shiftl (low6 b1) 12)
                       (Z.lor (Z.shiftl (low6 b2) 6) (low6 b3))) ::.)
                   <$> utf8_decode r'
            else None
        | _ => None
        end
      else None
  end.

(** What the proofs need to know of a lead byte and of a continuation
    byte, as two boolean checks that run over the 256 bytes: the code
    point of a sequence of two, three or four bytes is 128 or more. *)
Definition lead_ok (b0 : Z) : bool :=
  ((if decide (0xC2 ≤ b0 < 0xE0)
    then bool_decide (2 ^ 7 ≤ Z.shiftl (Z.land b0 0x1F) 6) else true)
   && (if decide (0xE0 < b0 < 0xF0)
       then bool_decide (2 ^ 7 ≤ Z.shiftl (Z.land b0 0x0F) 12) else true)
   && (if decide (0xF0 < b0 < 0xF5)
       then bool_decide (2 ^ 7 ≤ Z.shiftl (Z.land b0 0x07) 18) else true)
   && bool_decide (0 ≤ Z.shiftl (Z.land b0 0x1F) 6)
   && bool_decide (0 ≤ Z.shiftl (Z.land b0 0x0F) 12)
   && bool_decide (0 ≤ Z.shiftl (Z.land b0 0x07) 18))%Z.
Definition cont_ok (b1 : Z) : bool :=
  ((if is_continuation b1 && bool_decide (0x90 ≤ b1)
    then bool_decide (2 ^ 7 ≤ Z.shiftl (low6 b1) 12) else true)
   && (if is_continuation b1 && bool_decide (0xA0 ≤ b1)
       then bool_decide (2 ^ 7 ≤ Z.shiftl (low6 b1) 6) else true)
   && bool_decide (0 ≤ low6 b1)
   && bool_decide (0 ≤ Z.shiftl (low6 b1) 6)
   && bool_decide (0 ≤ Z.shiftl (low6 b1) 12))%Z.

Definition str_decode_utf8 (s : string) : outcome unicode :=
  match utf8_decode (str_bytes s) with
  | Some u => Return u
  | None => Raise (UnicodeDecodeError "utf8")
  end.

(** [str(u)] for a [unicode] [u], which is what [str.format] does with a
    unicode argument: the default codec is ASCII and it rejects every code
    point above 127. *)
Fixpoint ascii_encode (u : unicode) : option string :=
  match u with
  | [] => Some ""
  | c :: u' =>
      if decide (0 ≤ c < 128)%Z
      then String (ascii_of_N (Z.to_N c)) <$> ascii_encode u'
      else None
  end.
Definition str_of_unicode (u : unicode) : outcome string :=
  match ascii_encode u with
  | Some s => Return s
  | None => Raise (UnicodeEncodeError "ascii")
  end.

(** ** Objects and identity *)

(** Objects live at locations; a class that defines neither [__eq__] nor
    [__cmp__] inherits the comparison of [object], which is identity. *)
Abbreviation loc := nat.
Definition object_eq (l1 l2 : loc) : bool := bool_decide (l1 = l2).

(** ** DepotFile *)

Module DepotFile.

Record t : Type := mk {
  server : unicode;
  hash : string;
  type : string
}.

(** ['http://{0}.depot.battle.net:1119/{1}.{2}'.format(a, b, c)] on byte
    strings. *)
Definition url_template_format (a b c : string) : string :=
  "http://" +:+ a +:+ ".depot.battle.net:1119/" +:+ b +:+ "." +:+ c.

Definition __init__ (bytes : string) : outcome t :=
  decoded ← str_decode_utf8 (str_slice bytes 4 (Some 8));
  Return {| server := unicode_strip decoded padding;
            hash := str_encode_hex (str_slice bytes 8 None);
            type := str_slice bytes 0 (Some 4) |}.

Definition url (self : t) : outcome string :=
  server ← str_of_unicode (server self);
  Return (url_template_format server (hash self) (type self)).

(** [hash(self.url)]; the builtin [hash] on strings is a parameter. *)
Definition __hash__ (builtin_hash : string → Z) (self : t) : outcome Z :=
  builtin_hash <$> url self.

Definition __str__ (self : t) : outcome string := url self.

(** [DepotFile(bytes)] in a store of depot files: a new object at a fresh
    location, or the exception of [__init__] and no object. *)
Definition new (σ : gmap loc t) (bytes : string) : outcome (loc * gmap loc t) :=
  self ← __init__ bytes;
  let l := fresh (dom σ) in
  Return (l, <[l := self]> σ).

End DepotFile.

(** ** hashlib.sha256

    [hashlib.sha256(s).hexdigest()] of FIPS 180-4, on 32-bit words kept in
    [Z] with the wrap-around written out. *)

Module hashlib.

Definition w32 (x : Z) : Z := (x mod 2 ^ 32)%Z.
Definition rotr (n x : Z) : Z :=
  Z.lor (Z.shiftr x n) (w32 (Z.shiftl x (32 - n))).
Definition Ch (x y z : Z) : Z :=
  Z.lxor (Z.land x y) (Z.land (Z.lxor x 0xFFFFFFFF) z).
Definition Maj (x y z : Z) : Z :=
  Z.lxor (Z.lxor (Z.land x y) (Z.land x z)) (Z.land y z).
Definition Sigma0 (x : Z) : Z :=
  Z.lxor (Z.lxor (rotr 2 x) (rotr 13 x)) (rotr 22 x).
Definition Sigma1 (x : Z) : Z :=
  Z.lxor (Z.lxor (rotr 6 x) (rotr 11 x)) (rotr 25 x).
Definition sigma0 (x : Z) : Z :=
  Z.lxor (Z.lxor (rotr 7 x) (rotr 18 x)) (Z.shiftr x 3).
Definition sigma1 (x : Z) : Z :=
  Z.lxor (Z.lxor (rotr 17 x) (rotr 19 x)) (Z.shiftr x 10).

(** The constants are what FIPS 180-4 says they are: the first 32 bits of
    the fractional parts of the cube roots of the first 64 primes, and of
    the square roots of the first 8. *)
Definition is_prime (n : nat) : bool :=
  forallb (λ d, negb (n `mod` d =? 0)%nat) (seq 2 (n - 2)).
Definition primes : list Z :=
  Z.of_nat <$> filter (λ n, is_prime n = true) (seq 2 310).

(** The integer cube root, one bit at a time from bit 39 down. *)
Definition cube_root (n : Z) : Z :=
  foldl (λ r i, let r' := (r + 2 ^ Z.of_nat i)%Z in
                if decide (r' * r' * r' ≤ n)%Z then r' else r)
    0%Z (reverse (seq 0 40)).

Definition K : list Z := (λ p, w32 (cube_root (p * 2 ^ 96)))%Z <$> primes.
Definition H0 : list Z := (λ p, w32 (Z.sqrt (p * 2 ^ 64)))%Z <$> take 8 primes.

(** The message, the byte 0x80, zeros up to 56 modulo 64, and the length in
    bits as a 64-bit big-endian number. *)
Definition be_bytes (width : nat) (x : Z) : list Z :=
  (λ i : nat, Z.land (Z.shiftr x (8 * Z.of_nat (width - 1 - i))) 0xFF)%Z
    <$> seq 0 width.
Definition pad (msg : list Z) : list Z :=
  let n := Z.of_nat (length msg) in
  msg ++ [0x80%Z] ++ replicate (Z.to_nat ((55 - n) mod 64)) 0%Z
      ++ be_bytes 8 (8 * n).

Definition be_word (bs : list Z) : Z :=
  foldl (λ acc b, Z.lor (Z.shiftl acc 8) b) 0%Z bs.
Definition chunks {A} (size : nat) (l : list A) : list (list A) :=
  (λ i, take size (drop (size * i) l)) <$> seq 0 (length l `div` size).

(** The message schedule: sixteen words of the block, then forty-eight
    derived ones; [w] is the window of the last sixteen, oldest first. *)
Fixpoint schedule (n : nat) (w : list Z) : list Z :=
  match n with
  | O => []
  | S n' =>
      let x := w32 (sigma1 (w !!! 14%nat) + w !!! 9%nat
                    + sigma0 (w !!! 1%nat) + w !!! 0%nat) in
      x :: schedule n' (drop 1 w ++ [x])
  end.

Definition round (s : list Z) (kw : Z * Z) : list Z :=
  match s with
  | [a; b; c; d; e; f; g; h] =>
      let T1 := (h + Sigma1 e + Ch e f g + kw.1 + kw.2)%Z in
      let T2 := (Sigma0 a + Maj a b c)%Z in
      [w32 (T1 + T2); a; b; c; w32 (d + T1); e; f; g]
  | _ => s
  end.

Definition compress (H : list Z) (block : list Z) : list Z :=
  let w16 := be_word <$> chunks 4 block in
  let W := w16 ++ schedule 48 w16 in
  zip_with (λ x y, w32 (x + y)) H (foldl round H (zip K W)).

Definition word_hex (w : Z) : string :=
  string_of_list_ascii
    ((λ i : nat, hex_digit (Z.to_N (Z.land (Z.shiftr w (4 * Z.of_nat (7 - i))) 0xF)))
       <$> seq 0 8).

Definition sha256_hexdigest (s : string) : string :=
  let H := foldl compress H0 (chunks 64 (pad (str_bytes s))) in
  foldr (λ w acc, word_hex w +:+ acc) "" H.

End hashlib.

(** ** Values and objects *)

#[local] Set Warnings "-register-all".

(** The values attributes hold.  A list is kept by value: the embedding
    does not follow two names of one list. *)
Inductive val : Type :=
  | VNone
  | VBool (b : bool)
  | VInt (z : Z)
  | VStr (s : string)
  | VList (l : list val)
  | VObj (l : loc).

Inductive class : Type := cls_Person | cls_Observer | cls_Player | cls_Team.

Definition class_name (c : class) : string :=
  match c with
  | cls_Person => "Person"
  | cls_Observer => "Observer"
  | cls_Player => "Player"
  | cls_Team => "Team"
  end.

Record object : Type := Object {
  __class__ : class;
  __dict__ : gmap string val
}.

Abbreviation heap := (gmap loc object).

(** The attributes set in the class bodies, properties and methods apart. *)
Definition class_attrs (c : class) : list (string * val) :=
  match c with
  | cls_Person =>
      [("pid", VInt 0); ("name", VStr ""); ("is_observer", VBool false);
       ("is_human", VBool false); ("messages", VList []);
       ("events", VList []); ("recorder", VBool false);
       ("region", VStr "")]
  | cls_Observer => []
  | cls_Player =>
      [("URL_TEMPLATE", VStr "http://%s.battle.net/sc2/en/profile/%s/%s/%s/");
       ("team", VNone); ("color", VNone); ("pick_race", VStr "");
       ("play_race", VStr ""); ("difficulty", VStr "");
       ("handicap", VInt 0); ("subregion", VInt 0); ("uid", VInt 0)]
  | cls_Team =>
      [("number", VInt 0); ("players", VList []); ("result", VStr "");
       ("lineup", VStr "")]
  end.

(** The properties, which have no setter. *)
Definition class_properties (c : class) : list string :=
  match c with
  | cls_Player => ["url"; "result"]
  | cls_Team => ["hash"]
  | _ => []
  end.

Definition mro (c : class) : list class :=
  match c with
  | cls_Person => [cls_Person]
  | cls_Observer => [cls_Observer; cls_Person]
  | cls_Player => [cls_Player; cls_Person]
  | cls_Team => [cls_Team]
  end.

Fixpoint assoc (name : string) (l : list (string * val)) : option val :=
  match l with
  | [] => None
  | (k, v) :: l' => if decide (k = name) then Some v else assoc name l'
  end.

Fixpoint class_lookup (cs : list class) (name : string) : option val :=
  match cs with
  | [] => None
  | c :: cs' =>
      match assoc name (class_attrs c) with
      | Some v => Some v
      | None => class_lookup cs' name
      end
  end.

Definition no_attribute (type_name name : string) : exn :=
  AttributeError ("'" +:+ type_name +:+ "' object has no attribute '" +:+ name +:+ "'").

(** [obj.name] for a name that is neither a property nor a method: the
    instance dictionary, then the classes in method resolution order. *)
Definition getattr (h : heap) (l : loc) (name : string) : outcome val :=
  match h !! l with
  | None => Stuck
  | Some o =>
      match __dict__ o !! name with
      | Some v => Return v
      | None =>
          match class_lookup (mro (__class__ o)) name with
          | Some v => Return v
          | None => Raise (no_attribute (class_name (__class__ o)) name)
          end
      end
  end.

(** [obj.name = v] *)
Definition setattr (h : heap) (l : loc) (name : string) (v : val) : outcome heap :=
  match h !! l with
  | None => Stuck
  | Some o =>
      if bool_decide (name ∈ class_properties (__class__ o))
      then Raise (AttributeError "can't set attribute")
      else Return (<[l := Object (__class__ o) (<[name := v]> (__dict__ o))]> h)
  end.

(** [cls(...)]: a new object with an empty dictionary at a fresh location,
    handed to [__init__]; when [__init__] raises the caller gets the
    exception and no reference to the object. *)
Definition construct (c : class) (init : heap → loc → outcome heap) (h : heap)
    : outcome (loc * heap) :=
  let l := fresh (dom h) in
  h' ← init (<[l := Object c ∅]> h) l;
  Return (l, h').

Definition type_name (h : heap) (v : val) : outcome string :=
  match v with
  | VNone => Return "NoneType"
  | VBool _ => Return "bool"
  | VInt _ => Return "int"
  | VStr _ => Return "str"
  | VList _ => Return "list"
  | VObj l =>
      match h !! l with
      | Some o => Return (class_name (__class__ o))
      | None => Stuck
      end
  end.

(** [s + v] for a string [s]: concatenation with a string, a TypeError with
    any other value (none of the classes defines [__radd__]). *)
Definition str_add (h : heap) (s : string) (v : val) : outcome string :=
  match v with
  | VStr t => Return (s +:+ t)
  | _ =>
      t ← type_name h v;
      Raise (TypeError ("cannot concatenate 'str' and '" +:+ t +:+ "' objects"))
  end.

(** Truth value: none of the classes defines [__nonzero__] or [__len__], so
    their instances are true. *)
Definition truth (h : heap) (v : val) : outcome bool :=
  match v with
  | VNone => Return false
  | VBool b => Return b
  | VInt z => Return (bool_decide (z ≠ 0%Z))
  | VStr s => Return (bool_decide (s ≠ ""))
  | VList l => Return (bool_decide (l ≠ []))
  | VObj l => match h !! l with Some _ => Return true | None => Stuck end
  end.

(** [str(v)] on the scalars; the text of a list or of an object is left
    out. *)
Definition str (v : val) : outcome string :=
  match v with
  | VNone => Return "None"
  | VBool b => Return (if b then "True" else "False")
  | VInt z => Return (pretty z)
  | VStr s => Return s
  | VList _ | VObj _ => Stuck
  end.

(** [template % args] for the conversions [%s] and [%%]. *)
Fixpoint str_mod (template : string) (args : list string) : outcome string :=
  match template with
  | "" =>
      match args with
      | [] => Return ""
      | _ => Raise (TypeError "not all arguments converted during string formatting")
      end
  | String "%" (String "s" rest) =>
      match args with
      | a :: args' => (String.app a) <$> str_mod rest args'
      | [] => Raise (TypeError "not enough arguments for format string")
      end
  | String "%" (String "%" rest) => String "%" <$> str_mod rest args
  | String "%" _ => Stuck
  | String c rest => String c <$> str_mod rest args
  end.

Definition mod_ (template : val) (args : list val) : outcome string :=
  match template with
  | VStr t => texts ← for_each str args; str_mod t texts
  | _ => Stuck
  end.

(** What a decoder does to an object after its construction: a sequence
    of attribute assignments. *)
Fixpoint setattrs (h : heap) (l : loc) (updates : list (string * val))
    : outcome heap :=
  match updates with
  | [] => Return h
  | (name, v) :: updates' => h' ← setattr h l name v; setattrs h' l updates'
  end.

(** ** Person, Observer, Player *)

Module Person.

Definition __init__ (pid name : val) (h : heap) (self : loc) : outcome heap :=
  h ← setattr h self "pid" pid;
  h ← setattr h self "name" name;
  h ← setattr h self "is_observer" (VBool false);
  h ← setattr h self "messages" (VList []);
  h ← setattr h self "events" (VList []);
  h ← setattr h self "camera_events" (VList []);
  h ← setattr h self "ability_events" (VList []);
  h ← setattr h self "selection_events" (VList []);
  h ← setattr h self "is_human" (VBool false);
  h ← setattr h self "region" (VStr "");
  setattr h self "recorder" (VBool false).

End Person.

Module Observer.

Definition __init__ (pid name : val) (h : heap) (self : loc) : outcome heap :=
  h ← Person.__init__ pid name h self;
  h ← setattr h self "is_observer" (VBool true);
  setattr h self "is_human" (VBool true).

Definition new (pid name : val) : heap → outcome (loc * heap) :=
  construct cls_Observer (__init__ pid name).

(** ["Player {0} - {1}".format(self.pid, self.name)]; a replacement field
    without a format specification is filled with [str] of its argument. *)
Definition __str__ (h : heap) (self : loc) : outcome string :=
  pid ← getattr h self "pid";
  name ← getattr h self "name";
  pid ← str pid;
  name ← str name;
  Return ("Player " +:+ pid +:+ " - " +:+ name).

End Observer.

Module Player.

Definition __init__ (pid name : val) (h : heap) (self : loc) : outcome heap :=
  h ← Person.__init__ pid name h self;
  setattr h self "is_observer" (VBool false).

Definition new (pid name : val) : heap → outcome (loc * heap) :=
  construct cls_Player (__init__ pid name).

(** [self.URL_TEMPLATE % (self.gateway, self.uid, self.subregion, self.name)] *)
Definition url (h : heap) (self : loc) : outcome string :=
  template ← getattr h self "URL_TEMPLATE";
  gateway ← getattr h self "gateway";
  uid ← getattr h self "uid";
  subregion ← getattr h self "subregion";
  name ← getattr h self "name";
  mod_ template [gateway; uid; subregion; name].

(** [team.result] for the value of [self.team]: an attribute of a Team, of
    an Observer or of a Person when it is one; no builtin value has it.  A
    [team] that is itself a Player would re-enter the property and is left
    out. *)
Definition team_result (h : heap) (team : val) : outcome val :=
  match team with
  | VObj l =>
      match h !! l with
      | None => Stuck
      | Some o =>
          match __class__ o with
          | cls_Player => Stuck
          | _ => getattr h l "result"
          end
      end
  | _ => t ← type_name h team; Raise (no_attribute t "result")
  end.

(** [self.team.result if self.team else "Unknown"] *)
Definition result (h : heap) (self : loc) : outcome val :=
  cond ← getattr h self "team";
  b ← truth h cond;
  match b with
  | true => team ← getattr h self "team"; team_result h team
  | false => Return (VStr "Unknown")
  end.

(** ["Player %s - %s (%s)" % (self.pid, self.name, self.play_race)] *)
Definition __str__ (h : heap) (self : loc) : outcome string :=
  pid ← getattr h self "pid";
  name ← getattr h self "name";
  play_race ← getattr h self "play_race";
  mod_ (VStr "Player %s - %s (%s)") [pid; name; play_race].

End Player.

(** ** Team *)

Module Team.

Definition __init__ (number : val) (h : heap) (self : loc) : outcome heap :=
  h ← setattr h self "number" number;
  h ← setattr h self "players" (VList []);
  h ← setattr h self "result" (VStr "Unknown");
  setattr h self "lineup" (VStr "").

Definition new (number : val) : heap → outcome (loc * heap) :=
  construct cls_Team (__init__ number).

(** [p.url] for a member [p]: the property of a Player; on another object
    an attribute named [url], which has to hold a string to be sorted with
    the others; no builtin value has it. *)
Definition member_url (h : heap) (p : val) : outcome string :=
  match p with
  | VObj l =>
      match h !! l with
      | None => Stuck
      | Some o =>
          match __class__ o with
          | cls_Player => Player.url h l
          | _ =>
              u ← getattr h l "url";
              match u with VStr s => Return s | _ => Stuck end
          end
      end
  | _ => t ← type_name h p; Raise (no_attribute t "url")
  end.

(** [p.url for p in self.players]; iterating over something else than a
    list is left out. *)
Definition urls (h : heap) (self : loc) : outcome (list string) :=
  players ← getattr h self "players";
  match players with
  | VList ps => for_each (member_url h) ps
  | _ => Stuck
  end.

(** [','.join(sorted(p.url for p in self.players))] *)
Definition raw_hash (h : heap) (self : loc) : outcome string :=
  us ← urls h self;
  Return (str_join "," (sorted us)).

Definition hash (h : heap) (self : loc) : outcome string :=
  hashlib.sha256_hexdigest <$> raw_hash h self.

(** [self.players.__iter__()], as the list it runs over. *)
Definition __iter__ (h : heap) (self : loc) : outcome (list val) :=
  players ← getattr h self "players";
  match players with
  | VList ps => Return ps
  | _ => Stuck
  end.

End Team.

(** ** Attribute *)

Module Attribute.

(** Attribute ids are dictionary keys: integers or strings. *)
Inductive key : Type := KInt (z : Z) | KStr (s : string).

Global Instance key_eq_dec : EqDecision key.
Proof. solve_decision. Defined.
Global Instance key_countable : Countable key :=
  inj_countable'
    (λ k, match k with KInt z => inl z | KStr s => inr s end)
    (λ x, match x with inl z => KInt z | inr s => KStr s end)
    (λ k, match k with KInt _ | KStr _ => eq_refl end).

Definition key_val (k : key) : val :=
  match k with KInt z => VInt z | KStr s => VStr s end.

(** [LOBBY_PROPERTIES] comes from [sc2reader.constants]: it maps an id to a
    display name and a table from value codes to decoded values.  It is a
    parameter of the constructor here. *)
Abbreviation registry := (gmap key (string * gmap string val)).

(** [__init__] works on the dictionary of [self] and leaves it as it is at
    the point where it returns or raises. *)
Definition __init__ (LOBBY_PROPERTIES : registry) (self : gmap string val)
    (header : val) (attr_id : key) (player : val) (value : string)
    : gmap string val * outcome () :=
  let self := <["header" := header]> self in
  let self := <["id" := key_val attr_id]> self in
  let self := <["player" := player]> self in
  match LOBBY_PROPERTIES !! attr_id with
  | None =>
      (* an id is no object: the empty heap does for the name of its type *)
      (self,
       msg ← str_add ∅ "Unknown attribute id: " (key_val attr_id);
       Raise (ValueError msg))
  | Some (name, lookup) =>
      let self := <["name" := VStr name]> self in
      let code := str_reverse (str_strip value padding) in
      match lookup !! code with
      | Some v => (<["value" := v]> self, Return ())
      | None => (self, Raise (KeyError code))
      end
  end.

(** [Attribute(header, attr_id, player, value)]: the object when
    [__init__] returns, and only the exception when it raises. *)
Definition new (LOBBY_PROPERTIES : registry)
    (header : val) (attr_id : key) (player : val) (value : string)
    : outcome (gmap string val) :=
  let '(self, r) := __init__ LOBBY_PROPERTIES ∅ header attr_id player value in
  _ ← r; Return self.

(** The dictionary of an Attribute whose five attributes are set. *)
Definition decoded (header : val) (attr_id : key) (player : val)
    (name : string) (v : val) : gmap string val :=
  <["value" := v]> (<["name" := VStr name]> (<["player" := player]>
    (<["id" := key_val attr_id]> (<["header" := header]> ∅)))).

(** The lookup key as section 4.2 of the specification words it: trailing
    padding stripped, then the bytes reversed. *)
Definition spec_code (value : string) : string :=
  str_reverse (str_rstrip value padding).

(** [self.name] on an Attribute: the class body sets no attribute. *)
Definition getattr (self : gmap string val) (name : string) : outcome val :=
  match self !! name with
  | Some v => Return v
  | None => Raise (no_attribute "Attribute" name)
  end.

(** ["[%s] %s: %s" % (self.player, self.name, self.value)] *)
Definition __str__ (self : gmap string val) : outcome string :=
  player ← getattr self "player";
  name ← getattr self "name";
  value ← getattr self "value";
  mod_ (VStr "[%s] %s: %s") [player; name; value].

End Attribute.

(** ** Graph *)

Module Graph.

Record t : Type := mk {
  times : list val;
  values : list val
}.

(** [xy_list] is [None] or a list of pairs; an empty list is false, as
    [None] is. *)
Definition __init__ (x y : list val) (xy_list : option (list (val * val))) : t :=
  let self := {| times := []; values := [] |} in
  match xy_list with
  | Some (p :: ps) =>
      foldl (λ self xy, {| times := times self ++ [xy.1];
                           values := values self ++ [xy.2] |})
        self (p :: ps)
  | _ => {| times := x; values := y |}
  end.

Definition as_points (self : t) : list (val * val) :=
  zip (times self) (values self).

(** ["Graph with {0} values".format(len(self.times))] *)
Definition __str__ (self : t) : string :=
  "Graph with " +:+ pretty (Z.of_nat (length (times self))) +:+ " values".

End Graph.

(** ** PlayerSummary *)

Module PlayerSummary.

(** An attribute of a summary holds a value or a dictionary; a dictionary
    is given by its items in the order in which it is iterated. *)
Inductive attr : Type :=
  | Scalar (v : val)
  | Dict (items : list (string * val)).

Definition class_attrs : list (string * attr) :=
  [("pid", Scalar (VInt 0)); ("teamid", Scalar (VInt 0));
   ("play_race", Scalar (VStr "")); ("pick_race", Scalar (VStr ""));
   ("is_ai", Scalar (VBool false)); ("is_winner", Scalar (VBool false));
   ("bnetid", Scalar (VInt 0)); ("subregion", Scalar (VInt 0));
   ("gateway", Scalar (VStr "")); ("region", Scalar (VStr ""));
   ("unknown1", Scalar (VInt 0)); ("unknown2", Dict []);
   ("army_graph", Scalar VNone); ("income_graph", Scalar VNone);
   ("stats", Dict [])].

Fixpoint lookup_item {A} (name : string) (l : list (string * A)) : option A :=
  match l with
  | [] => None
  | (k, v) :: l' => if decide (k = name) then Some v else lookup_item name l'
  end.

(** The class is an old-style one, and so is the text of its
    AttributeError. *)
Definition getattr (self : gmap string attr) (name : string) : outcome attr :=
  match self !! name with
  | Some a => Return a
  | None =>
      match lookup_item name class_attrs with
      | Some a => Return a
      | None =>
          Raise (AttributeError
                   ("PlayerSummary instance has no attribute '" +:+ name +:+ "'"))
      end
  end.

Definition __init__ (pid : val) : gmap string attr :=
  <["pid" := Scalar pid]> (<["unknown2" := Dict []]> ∅).

(** [d[k]] *)
Definition getitem (d : attr) (k : string) : outcome val :=
  match d with
  | Dict items =>
      match lookup_item k items with
      | Some v => Return v
      | None => Raise (KeyError k)
      end
  | Scalar _ => Stuck
  end.

(** One turn of the loop of [get_stats]:
    [s += '{0}: {1}\n'.format(self.stats_pretty_names[k], self.stats[k])] *)
Definition get_stats_step (self : gmap string attr) (s k : string)
    : outcome string :=
  names ← getattr self "stats_pretty_names";
  name ← getitem names k;
  stats ← getattr self "stats";
  value ← getitem stats k;
  name ← str name;
  value ← str value;
  Return (s +:+ name +:+ ": " +:+ value +:+ String "010" "").

Fixpoint get_stats_loop (self : gmap string attr) (s : string)
    (keys : list string) : outcome string :=
  match keys with
  | [] => Return s
  | k :: keys' => s' ← get_stats_step self s k; get_stats_loop self s' keys'
  end.

(** The characters [strip()] without argument removes. *)
Definition whitespace : string :=
  String "009" (String "010" (String "011" (String "012" (String "013" " ")))).

Definition get_stats (self : gmap string attr) : outcome string :=
  stats ← getattr self "stats";
  match stats with
  | Dict items => s ← get_stats_loop self "" items.*1; Return (str_strip s whitespace)
  | Scalar _ => Stuck
  end.

End PlayerSummary.

(** ** Reading hexadecimal *)

(** The inverse of [str_encode_hex], which the source does not have: it
    serves to show that the encoding loses nothing. *)
Definition hex_value (c : ascii) : option N :=
  List.find (λ n, Ascii.eqb (hex_digit n) c) (N.of_nat <$> seq 0 16).
Fixpoint str_decode_hex (s : string) : option string :=
  match s with
  | "" => Some ""
  | String a (String b s') =>
      hi ← hex_value a; lo ← hex_value b; rest ← str_decode_hex s';
      Some (String (ascii_of_N (16 * hi + lo)) rest)
  | _ => None
  end.
Definition hex_digits : string := "0123456789abcdef".

(** ** Sample data *)

(** A registry with the entry of the team attribute, and a four-byte raw
    value padded on both sides. *)
Definition sample_registry : Attribute.registry :=
  {[ Attribute.KInt 2002 :=
       ("Teams1v1", {[ "T1" := VStr "Team 1"; "T2" := VStr "Team 2" ]}) ]}.
Definition NUL : string := String "000" "".
Definition padded_T1 : string := NUL +:+ "1T" +:+ NUL.

(** Depot descriptors: the scenario of the specification, the same with
    space padding, one whose server field is no UTF-8, and one whose server
    field is the UTF-8 of a letter outside ASCII. *)
Definition deadbeef : string :=
  String "222" (String "173" (String "190" (String "239" ""))).
Definition depot_us : string := "s2ma" +:+ "us" +:+ NUL +:+ NUL +:+ deadbeef.
Definition depot_us_spaces : string := "s2ma" +:+ "us  " +:+ deadbeef.
Definition depot_not_utf8 : string :=
  "s2ma" +:+ String "255" (String "255" (String "255" (String "255" deadbeef))).
Definition depot_e_acute : string :=
  "s2ma" +:+ String "195" (String "169" (NUL +:+ NUL +:+ deadbeef)).

(** The object both [depot_us] and [depot_us_spaces] decode to, and the
    store after constructing one and then the other. *)
Definition depot_us_object : DepotFile.t :=
  {| DepotFile.server := [117; 115]%Z;
     DepotFile.hash := "deadbeef";
     DepotFile.type := "s2ma" |}.
Definition two_depots : gmap loc DepotFile.t :=
  <[1 := depot_us_object]> (<[0 := depot_us_object]> ∅).

(** The dictionary of a Player as its constructor leaves it. *)
Definition fresh_player_dict (pid name : val) : gmap string val :=
  <["is_observer" := VBool false]> (<["recorder" := VBool false]>
  (<["region" := VStr ""]> (<["is_human" := VBool false]>
  (<["selection_events" := VList []]> (<["ability_events" := VList []]>
  (<["camera_events" := VList []]> (<["events" := VList []]>
  (<["messages" := VList []]> (<["is_observer" := VBool false]>
  (<["name" := name]> (<["pid" := pid]> ∅))))))))))).

(** The dictionary of a Team as its constructor leaves it. *)
Definition fresh_team_dict (number : val) : gmap string val :=
  <["lineup" := VStr ""]> (<["result" := VStr "Unknown"]>
  (<["players" := VList []]> (<["number" := number]> ∅))).

(** Bob, on the team at location 1, which won; and Bob before he was put
    on a team. *)
Definition bob_dict : gmap string val :=
  <["team" := VObj 1]> (<["gateway" := VStr "us"]>
    (fresh_player_dict (VInt 1) (VStr "Bob"))).
Definition winners_dict : gmap string val :=
  <["result" := VStr "Win"]> (<["players" := VList [VObj 0]]>
    (fresh_team_dict (VInt 1))).
Definition bob_wins : heap :=
  <[1 := Object cls_Team winners_dict]> (<[0 := Object cls_Player bob_dict]> ∅).
Definition bob_alone : heap :=
  <[0 := Object cls_Player (fresh_player_dict (VInt 1) (VStr "Bob"))]> ∅.

(** Bob and Alice with their gateways, and two teams that list them in
    the two possible orders. *)
Definition alice_dict : gmap string val :=
  <["gateway" := VStr "eu"]> (fresh_player_dict (VInt 2) (VStr "Alice")).
Definition two_teams : heap :=
  <[3 := Object cls_Team
           (<["players" := VList [VObj 1; VObj 0]]> (fresh_team_dict (VInt 2)))]>
  (<[2 := Object cls_Team
            (<["players" := VList [VObj 0; VObj 1]]> (fresh_team_dict (VInt 1)))]>
  (<[1 := Object cls_Player alice_dict]>
  (<[0 := Object cls_Player
            (<["gateway" := VStr "us"]>
               (fresh_player_dict (VInt 1) (VStr "Bob")))]> ∅))).
Definition bob_url : string := "http://us.battle.net/sc2/en/profile/0/0/Bob/".
Definition alice_url : string := "http://eu.battle.net/sc2/en/profile/0/0/Alice/".

(** Player [c] carries in its name the end of the url of [a], a comma and
    the url of [b] up to its last character: the url of [c] is the two urls
    joined.  One team holds [a] and [b], the other holds [c]. *)
Definition comma_scenario : outcome (loc * loc * heap) :=
  '(a, h) ← Player.new (VInt 1) (VStr "a") ∅;
  h ← setattrs h a [("gateway", VStr "us"); ("uid", VInt 1); ("subregion", VInt 1)];
  '(b, h) ← Player.new (VInt 2) (VStr "b") h;
  h ← setattrs h b [("gateway", VStr "us"); ("uid", VInt 2); ("subregion", VInt 1)];
  '(c, h) ← Player.new (VInt 3)
              (VStr "a/,http://us.battle.net/sc2/en/profile/2/1/b") h;
  h ← setattrs h c [("gateway", VStr "us"); ("uid", VInt 1); ("subregion", VInt 1)];
  '(t1, h) ← Team.new (VInt 1) h;
  h ← setattr h t1 "players" (VList [VObj a; VObj b]);
  '(t2, h) ← Team.new (VInt 2) h;
  h ← setattr h t2 "players" (VList [VObj c]);
  Return (t1, t2, h).

(** One team lists a player once, the other lists the same player twice. *)
Definition twice_scenario : outcome (loc * loc * heap) :=
  '(a, h) ← Player.new (VInt 1) (VStr "a") ∅;
  h ← setattrs h a [("gateway", VStr "us"); ("uid", VInt 1); ("subregion", VInt 1)];
  '(t1, h) ← Team.new (VInt 1) h;
  h ← setattr h t1 "players" (VList [VObj a]);
  '(t2, h) ← Team.new (VInt 2) h;
  h ← setattr h t2 "players" (VList [VObj a; VObj a]);
  Return (t1, t2, h).

(** For two teams of a scenario: whether their hashes are equal, and
    whether the sets of their member urls are. *)
Definition compare_teams (scenario : outcome (loc * loc * heap))
    : outcome (bool * bool) :=
  '(t1, t2, h) ← scenario;
  hash1 ← Team.hash h t1;
  hash2 ← Team.hash h t2;
  urls1 ← Team.urls h t1;
  urls2 ← Team.urls h t2;
  Return (bool_decide (hash1 = hash2),
          bool_decide (list_to_set urls1 =@{gset string} list_to_set urls2)).

(** A plain player: a Player with the template of the class, a gateway
    and a name that are strings without a comma, and an integer uid and
    subregion, assigned or left to the class. *)
Definition plain_player (h : heap) (p : val) : Prop :=
  ∃ (l : loc) (d : gmap string val) (g n : string) (u s : Z),
    p = VObj l ∧ h !! l = Some (Object cls_Player d) ∧
    d !! "URL_TEMPLATE" = None ∧
    d !! "gateway" = Some (VStr g) ∧ comma_free g = true ∧
    default (VStr "") (d !! "name") = VStr n ∧ comma_free n = true ∧
    default (VInt 0) (d !! "uid") = VInt u ∧
    default (VInt 0) (d !! "subregion") = VInt s.

(** A team of Bob and of a player who has no gateway yet, and a team that
    lists an Observer. *)
Definition bob_and_newcomer : heap :=
  <[2 := Object cls_Team
           (<["players" := VList [VObj 0; VObj 1]]> (fresh_team_dict (VInt 1)))]>
  (<[1 := Object cls_Player (fresh_player_dict (VInt 2) (VStr "Carol"))]>
  (<[0 := Object cls_Player
            (<["gateway" := VStr "us"]>
               (fresh_player_dict (VInt 1) (VStr "Bob")))]> ∅)).

Definition team_with_observer : heap :=
  <[1 := Object cls_Team
           (<["players" := VList [VObj 0]]> (fresh_team_dict (VInt 1)))]>
  (<[0 := Object cls_Observer
            (<["is_human" := VBool true]> (<["is_observer" := VBool true]>
               (fresh_player_dict (VInt 3) (VStr "Eve"))))]> ∅).

(** * Properties *)

(** ** hashlib *)

(** The digests of the test vectors of FIPS 180-4: the empty message, one
    block, two blocks. *)
Example sha256_empty :
  hashlib.sha256_hexdigest "" =
  "e3b0c44298fc1c149afbf4c8996fb92427ae41e4649b934ca495991b7852b855".
Proof. vm_compute. reflexivity. Qed.

Example sha256_constants :
  length hashlib.K = 64 ∧ hashlib.K !! 0 = Some 0x428a2f98%Z ∧
  hashlib.K !! 63 = Some 0xc67178f2%Z ∧ hashlib.H0 !! 0 = Some 0x6a09e667%Z ∧
  hashlib.H0 !! 7 = Some 0x5be0cd19%Z.
Proof. vm_compute. done. Qed.

Example sha256_abc :
  hashlib.sha256_hexdigest "abc" =
  "ba7816bf8f01cfea414140de5dae2223b00361a396177a9cb410ff61f20015ad".
Proof. vm_compute. reflexivity. Qed.

Example sha256_two_blocks :
  hashlib.sha256_hexdigest
    "abcdbcdecdefdefgefghfghighijhijkijkljklmklmnlmnomnopnopq" =
  "248d6a61d20638b8e5c026930c3e6039a33ce45964ff2167f6ecedd419db06c1".
Proof. vm_compute. reflexivity. Qed.

(** The digest is 256 bits: eight words, 64 hexadecimal digits. *)
Lemma round_length (s : list Z) (kw : Z * Z) :
  length s = 8 → length (hashlib.round s kw) = 8.
Proof. by destruct s as [|a [|b [|c [|d [|e [|f [|g [|h [|i s]]]]]]]]]. Qed.

Lemma compress_length (H block : list Z) :
  length H = 8 → length (hashlib.compress H block) = 8.
Proof.
  intros HH. unfold hashlib.compress. rewrite length_zip_with, HH.
  generalize (zip hashlib.K
    ((hashlib.be_word <$> hashlib.chunks 4 block) ++
     hashlib.schedule 48 (hashlib.be_word <$> hashlib.chunks 4 block))).
  intros kws. cut (length (foldl hashlib.round H kws) = 8); [lia |].
  revert H HH. induction kws as [|kw kws IH]; intros H HH; simpl; [done |].
  by apply IH, round_length.
Qed.

Lemma length_app_string (s1 s2 : string) :
  String.length (s1 +:+ s2) = String.length s1 + String.length s2.
Proof. induction s1 as [|c s1 IH]; [done |]. simpl. by rewrite IH. Qed.

Lemma sha256_hexdigest_length (s : string) :
  String.length (hashlib.sha256_hexdigest s) = 64.
Proof.
  unfold hashlib.sha256_hexdigest.
  generalize (hashlib.chunks 64 (hashlib.pad (str_bytes s))). intros blocks.
  assert (length (foldl hashlib.compress hashlib.H0 blocks) = 8) as Hlen.
  { assert (length hashlib.H0 = 8) as H0 by (vm_compute; reflexivity).
    revert H0. generalize hashlib.H0.
    induction blocks as [|b blocks IH]; intros H HH; simpl; [done |].
    by apply IH, compress_length. }
  revert Hlen. generalize (foldl hashlib.compress hashlib.H0 blocks).
  intros H. 
  cut (String.length (foldr (λ w acc, hashlib.word_hex w +:+ acc) "" H) = 8 * length H).
  { intros -> ->. done. }
  induction H as [|w H IH]; [done |]. cbn [foldr length].
  rewrite length_app_string, IH. unfold hashlib.word_hex. 
  assert (∀ l, String.length (string_of_list_ascii l) = length l) as Hl.
  { induction l as [|c l IHl]; [done |]. simpl. by rewrite IHl. }
  rewrite Hl, length_fmap, length_seq. lia.
Qed.

(** ** Outcomes *)

Lemma for_each_Return {A B} (f : A → outcome B) xs ys :
  for_each f xs = Return ys ↔ Forall2 (λ x y, f x = Return y) xs ys.
Proof.
  revert ys. induction xs as [|x xs IH]; intros ys; simpl.
  - split; [intros [= <-]; constructor | by inversion 1].
  - destruct (f x) as [y| |] eqn:Hx; simpl.
    + destruct (for_each f xs) as [ys'| |] eqn:Hxs; simpl.
      * split.
        -- intros [= <-]. constructor; [done | by apply IH].
        -- inversion 1 as [|? y0 ? ys0 Hy Hys]; subst.
           rewrite Hx in Hy. injection Hy as <-.
           apply IH in Hys. by injection Hys as <-.
      * split; [done |]. inversion 1 as [|? ? ? ys0 _ Hys]; subst.
        by apply IH in Hys.
      * split; [done |]. inversion 1 as [|? ? ? ys0 _ Hys]; subst.
        by apply IH in Hys.
    + split; [done |]. inversion 1; subst; congruence.
    + split; [done |]. inversion 1; subst; congruence.
Qed.

Lemma for_each_Permutation {A B} (f : A → outcome B) xs xs' ys :
  xs ≡ₚ xs' → for_each f xs = Return ys →
  ∃ ys', for_each f xs' = Return ys' ∧ ys ≡ₚ ys'.
Proof.
  intros Hp. revert ys.
  induction Hp as [|x xs xs' _ IH|x1 x2 xs|xs xs' xs'' _ IH1 _ IH2]; intros ys.
  - intros [= <-]. by exists [].
  - simpl. destruct (f x) as [y| |]; simpl; [|done..].
    destruct (for_each f xs) as [zs| |] eqn:Hzs; simpl; [|done..].
    intros [= <-]. destruct (IH zs eq_refl) as (zs' & -> & Hzs').
    exists (y :: zs'). split; [done | by constructor].
  - simpl. destruct (f x1) as [y1| |]; destruct (f x2) as [y2| |]; simpl;
      try done; destruct (for_each f xs) as [zs| |]; simpl; try done.
    intros [= <-]. exists (y1 :: y2 :: zs). split; [done | constructor].
  - intros Hys. destruct (IH1 ys Hys) as (ys' & Hys' & Hp1).
    destruct (IH2 ys' Hys') as (ys'' & Hys'' & Hp2).
    exists ys''. split; [done | by etrans].
Qed.

(** ** Strings *)

Lemma list_ascii_of_string_app s1 s2 :
  list_ascii_of_string (s1 +:+ s2) =
  list_ascii_of_string s1 ++ list_ascii_of_string s2.
Proof. induction s1 as [|c s1 IH]; simpl; [done | by rewrite IH]. Qed.

Section strip.
Context {A : Type} `{EqDecision A}.
Implicit Types chars l : list A.

Lemma list_lstrip_app_all chars pre l :
  Forall (.∈ chars) pre → list_lstrip chars (pre ++ l) = list_lstrip chars l.
Proof.
  induction 1 as [|c pre Hc _ IH]; simpl; [done |].
  by rewrite bool_decide_eq_true_2.
Qed.

Lemma list_lstrip_all chars l : Forall (.∈ chars) l → list_lstrip chars l = [].
Proof.
  induction 1 as [|c pre Hc _ IH]; simpl; [done |].
  by rewrite bool_decide_eq_true_2.
Qed.

Lemma list_lstrip_head chars c l : c ∉ chars → list_lstrip chars (c :: l) = c :: l.
Proof. intros Hc. simpl. by rewrite bool_decide_eq_false_2. Qed.

(** [strip] removes a prefix and a suffix made of [chars] around a core
    that neither starts nor ends with one of them. *)
Lemma list_strip_decompose chars pre core suf :
  Forall (.∈ chars) pre → Forall (.∈ chars) suf →
  (∀ a, head core = Some a → a ∉ chars) →
  (∀ b, last core = Some b → b ∉ chars) →
  list_strip chars (pre ++ core ++ suf) = core.
Proof.
  intros Hpre Hsuf Hhd Hlast. unfold list_strip, list_rstrip.
  rewrite list_lstrip_app_all by done.
  destruct core as [|a core]; simpl.
  { by rewrite (list_lstrip_all chars suf). }
  rewrite bool_decide_eq_false_2 by (by apply Hhd).
  change (a :: core ++ suf) with ((a :: core) ++ suf).
  rewrite reverse_app, list_lstrip_app_all by (by apply Forall_reverse).
  destruct (reverse (a :: core)) as [|b rc] eqn:Hrev.
  { apply (f_equal reverse) in Hrev. by rewrite reverse_involutive in Hrev. }
  rewrite list_lstrip_head.
  - by rewrite <-Hrev, reverse_involutive.
  - apply Hlast. rewrite <-(reverse_involutive (a :: core)), Hrev.
    by rewrite reverse_cons, last_snoc.
Qed.

(** [rstrip] leaves a prefix alone. *)
Lemma list_rstrip_decompose chars core suf :
  Forall (.∈ chars) suf →
  (∀ b, last core = Some b → b ∉ chars) →
  list_rstrip chars (core ++ suf) = core.
Proof.
  intros Hsuf Hlast. unfold list_rstrip.
  rewrite reverse_app, list_lstrip_app_all by (by apply Forall_reverse).
  destruct (reverse core) as [|b rc] eqn:Hrev.
  { apply (f_equal reverse) in Hrev. by rewrite reverse_involutive in Hrev. }
  rewrite list_lstrip_head.
  - by rewrite <-Hrev, reverse_involutive.
  - apply Hlast. rewrite <-(reverse_involutive core), Hrev.
    by rewrite reverse_cons, last_snoc.
Qed.

End strip.

Lemma only_of_Forall chars s :
  only_of chars s = true →
  Forall (.∈ list_ascii_of_string chars) (list_ascii_of_string s).
Proof.
  unfold only_of. rewrite forallb_forall, Forall_forall.
  intros H c Hc. eapply bool_decide_eq_true_1, H. by apply list_elem_of_In.
Qed.

Lemma trimmed_head chars s a :
  trimmed chars s = true → head (list_ascii_of_string s) = Some a →
  a ∉ list_ascii_of_string chars.
Proof.
  unfold trimmed. intros H Ha. rewrite Ha in H.
  destruct (last (list_ascii_of_string s)) as [b|] eqn:Hb.
  - apply andb_true_iff in H as [H _].
    by apply negb_true_iff, bool_decide_eq_false in H.
  - apply last_None in Hb. by rewrite Hb in Ha.
Qed.

Lemma trimmed_last chars s b :
  trimmed chars s = true → last (list_ascii_of_string s) = Some b →
  b ∉ list_ascii_of_string chars.
Proof.
  unfold trimmed. intros H Hb. rewrite Hb in H.
  destruct (head (list_ascii_of_string s)) as [a|] eqn:Ha.
  - apply andb_true_iff in H as [_ H].
    by apply negb_true_iff, bool_decide_eq_false in H.
  - apply head_None in Ha. by rewrite Ha in Hb.
Qed.

Lemma str_strip_decompose chars pre core suf :
  only_of chars pre = true → only_of chars suf = true →
  trimmed chars core = true →
  str_strip (pre +:+ core +:+ suf) chars = core.
Proof.
  intros Hpre Hsuf Hcore. unfold str_strip.
  rewrite !list_ascii_of_string_app, list_strip_decompose.
  - apply string_of_list_ascii_of_string.
  - by apply only_of_Forall.
  - by apply only_of_Forall.
  - intros a. by apply trimmed_head.
  - intros b. by apply trimmed_last.
Qed.

(** Every string is some padding, a trimmed core, and some padding. *)
Lemma list_lstrip_split {A} `{EqDecision A} (chars l : list A) :
  ∃ pre, l = pre ++ list_lstrip chars l ∧ Forall (.∈ chars) pre ∧
         ∀ a, head (list_lstrip chars l) = Some a → a ∉ chars.
Proof.
  induction l as [|c l (pre & Hl & Hpre & Hhd)]; simpl.
  { by exists []. }
  case_bool_decide as Hc.
  - exists (c :: pre). split_and!; [by rewrite Hl at 1 | by constructor | done].
  - exists []. split_and!; [done | constructor |]. by intros a [= <-].
Qed.

Lemma list_strip_split {A} `{EqDecision A} (chars l : list A) :
  ∃ pre suf, l = pre ++ list_strip chars l ++ suf ∧
    Forall (.∈ chars) pre ∧ Forall (.∈ chars) suf ∧
    (∀ a, head (list_strip chars l) = Some a → a ∉ chars) ∧
    (∀ b, last (list_strip chars l) = Some b → b ∉ chars).
Proof.
  destruct (list_lstrip_split chars l) as (pre & Hl & Hpre & Hhd).
  unfold list_strip, list_rstrip. set (m := list_lstrip chars l) in *.
  destruct (list_lstrip_split chars (reverse m)) as (fus & Hm & Hfus & Hlast).
  set (eroc := list_lstrip chars (reverse m)) in *.
  assert (m = reverse eroc ++ reverse fus) as Hm'.
  { by rewrite <-reverse_app, <-Hm, reverse_involutive. }
  exists pre, (reverse fus). split_and!.
  - by rewrite <-Hm'.
  - done.
  - by apply Forall_reverse.
  - intros a Ha. apply Hhd. rewrite Hm'.
    destruct (reverse eroc); [done | by simplify_eq/=].
  - intros b Hb. apply Hlast. rewrite <-(reverse_involutive eroc).
    destruct (reverse eroc) as [|x r] using rev_ind; [done |].
    rewrite last_snoc in Hb. by rewrite reverse_snoc.
Qed.

(** Every raw value is some padding, a trimmed core and some padding, so
    the theorem on decoding below covers every raw value. *)
Lemma str_padding_split (chars value : string) :
  ∃ pre core suf, value = pre +:+ core +:+ suf ∧
    only_of chars pre = true ∧ only_of chars suf = true ∧
    trimmed chars core = true.
Proof.
  destruct (list_strip_split (list_ascii_of_string chars)
              (list_ascii_of_string value))
    as (pre & suf & Hl & Hpre & Hsuf & Hhd & Hlast).
  set (core := list_strip (list_ascii_of_string chars)
                 (list_ascii_of_string value)) in *.
  exists (string_of_list_ascii pre), (string_of_list_ascii core),
    (string_of_list_ascii suf).
  assert (∀ l, Forall (.∈ list_ascii_of_string chars) l →
               only_of chars (string_of_list_ascii l) = true) as Honly.
  { intros l Hall. unfold only_of.
    rewrite list_ascii_of_string_of_list_ascii, forallb_forall.
    intros c Hc%list_elem_of_In. apply bool_decide_eq_true.
    rewrite Forall_forall in Hall. by apply Hall. }
  split_and!; [| by apply Honly | by apply Honly |].
  - rewrite <-(string_of_list_ascii_of_string value), Hl.
    rewrite <-(list_ascii_of_string_of_list_ascii pre) at 1.
    rewrite <-(list_ascii_of_string_of_list_ascii core) at 1.
    rewrite <-(list_ascii_of_string_of_list_ascii suf) at 1.
    by rewrite <-!list_ascii_of_string_app, string_of_list_ascii_of_string.
  - unfold trimmed. rewrite list_ascii_of_string_of_list_ascii.
    destruct (head core) as [a|] eqn:Ha; [|done].
    destruct (last core) as [b|] eqn:Hb; [|done].
    rewrite !bool_decide_eq_false_2; [done | by apply Hlast | by apply Hhd].
Qed.

(** Without leading padding the key of the specification is the key of the
    code. *)
Lemma spec_code_trailing (core suf : string) :
  only_of padding suf = true → trimmed padding core = true →
  Attribute.spec_code (core +:+ suf) = str_reverse core.
Proof.
  intros Hsuf Hcore. unfold Attribute.spec_code, str_rstrip.
  rewrite list_ascii_of_string_app, list_rstrip_decompose.
  - by rewrite string_of_list_ascii_of_string.
  - by apply only_of_Forall.
  - intros b. by apply trimmed_last.
Qed.

(** ** Attribute *)

Section attribute.
Context (LOBBY_PROPERTIES : Attribute.registry).
Implicit Types (header player : val) (attr_id : Attribute.key).

Lemma Attribute_new_known header attr_id player value name table :
  LOBBY_PROPERTIES !! attr_id = Some (name, table) →
  Attribute.new LOBBY_PROPERTIES header attr_id player value =
    match table !! str_reverse (str_strip value padding) with
    | Some v => Return (Attribute.decoded header attr_id player name v)
    | None => Raise (KeyError (str_reverse (str_strip value padding)))
    end.
Proof.
  intros Hid. unfold Attribute.new, Attribute.__init__. rewrite Hid.
  by destruct (table !! _).
Qed.

(** An unknown id always ends in an exception: the caller never holds an
    object, although [__init__] had set three attributes by then. *)
Lemma Attribute_new_unknown header attr_id player value :
  LOBBY_PROPERTIES !! attr_id = None →
  Attribute.new LOBBY_PROPERTIES header attr_id player value =
    match attr_id with
    | Attribute.KStr s => Raise (ValueError ("Unknown attribute id: " +:+ s))
    | Attribute.KInt _ =>
        Raise (TypeError "cannot concatenate 'str' and 'int' objects")
    end ∧
  (Attribute.__init__ LOBBY_PROPERTIES ∅ header attr_id player value).1 =
    <["player" := player]>
      (<["id" := Attribute.key_val attr_id]> (<["header" := header]> ∅)).
Proof.
  intros Hid. unfold Attribute.new, Attribute.__init__. rewrite Hid.
  by destruct attr_id.
Qed.

End attribute.

(** C1 (as amended). For an id of the registry, the constructor strips the
    null bytes and spaces at both ends of the raw value, the leading ones as
    well as the trailing ones, reverses what is left and looks that up in
    the table of the id: the Attribute holds the entry, and a missing entry
    is the KeyError of the table. *)
Theorem attribute_value_decoding (LOBBY_PROPERTIES : Attribute.registry)
    (header : val) (attr_id : Attribute.key) (player : val)
    (name : string) (table : gmap string val) (pre core suf : string) :
  LOBBY_PROPERTIES !! attr_id = Some (name, table) →
  only_of padding pre = true →
  only_of padding suf = true →
  trimmed padding core = true →
  Attribute.new LOBBY_PROPERTIES header attr_id player (pre +:+ core +:+ suf) =
    match table !! str_reverse core with
    | Some v => Return (Attribute.decoded header attr_id player name v)
    | None => Raise (KeyError (str_reverse core))
    end.
Proof.
  intros Hid Hpre Hsuf Hcore.
  rewrite (Attribute_new_known _ _ _ _ _ _ _ Hid).
  by rewrite str_strip_decompose.
Qed.

Lemma attribute_value_decoding_witness :
  Attribute.new sample_registry VNone (Attribute.KInt 2002) VNone padded_T1 =
    Return (Attribute.decoded VNone (Attribute.KInt 2002) VNone "Teams1v1" (VStr "Team 1")).
Proof.
  refine (eq_trans
    (attribute_value_decoding sample_registry VNone (Attribute.KInt 2002)
       VNone "Teams1v1" {[ "T1" := VStr "Team 1"; "T2" := VStr "Team 2" ]}
       NUL "1T" NUL _ _ _ _) _); vm_compute; reflexivity.
Defined.

(** C1 (as stated) fails on a value with leading padding: the key of the
    specification keeps the leading null byte and is in no table, so the
    claim asks for an error, and the constructor returns "Team 1". *)
Lemma attribute_trailing_strip_only_fails :
  Attribute.spec_code padded_T1 = "T1" +:+ NUL ∧
  ({[ "T1" := VStr "Team 1"; "T2" := VStr "Team 2" ]} : gmap string val)
    !! Attribute.spec_code padded_T1 = None ∧
  Attribute.new sample_registry VNone (Attribute.KInt 2002) VNone padded_T1 =
    Return (Attribute.decoded VNone (Attribute.KInt 2002) VNone "Teams1v1" (VStr "Team 1")).
Proof. repeat split; vm_compute; reflexivity. Qed.

(** C6 at an integer id that the registry does not have: building the
    message of the ValueError fails, and the constructor raises a TypeError
    in its place.  A string id that the registry does not have gets the
    ValueError. *)
Theorem attribute_unknown_int_id :
  sample_registry !! Attribute.KInt 500 = None ∧
  Attribute.new sample_registry VNone (Attribute.KInt 500) VNone "nmuH" =
    Raise (TypeError "cannot concatenate 'str' and 'int' objects") ∧
  sample_registry !! Attribute.KStr "500" = None ∧
  Attribute.new sample_registry VNone (Attribute.KStr "500") VNone "nmuH" =
    Raise (ValueError "Unknown attribute id: 500").
Proof. repeat split; vm_compute; reflexivity. Qed.

(** ** DepotFile *)

Lemma utf8_decode_ascii bs :
  Forall (λ b, b < 128)%Z bs → utf8_decode bs = Some bs.
Proof.
  induction 1 as [|b bs Hb _ IH]; simpl; [done |].
  rewrite decide_True by lia. by rewrite IH.
Qed.

Lemma is_ascii_Forall s :
  is_ascii s = true → Forall (λ b, b < 128)%Z (str_bytes s).
Proof.
  unfold is_ascii. rewrite forallb_forall, Forall_forall.
  intros H b Hb. eapply bool_decide_eq_true_1, H. by apply list_elem_of_In.
Qed.

Lemma ascii_encode_bytes (l : list ascii) :
  Forall (λ b, b < 128)%Z ((λ c, Z.of_N (N_of_ascii c)) <$> l) →
  ascii_encode ((λ c, Z.of_N (N_of_ascii c)) <$> l) = Some (string_of_list_ascii l).
Proof.
  induction l as [|c l IH]; [reflexivity |].
  rewrite fmap_cons, Forall_cons. intros [Hc Hl].
  cbn [ascii_encode]. rewrite decide_True by lia.
  rewrite (IH Hl). cbn. by rewrite N2Z.id, ascii_N_embedding.
Qed.

Lemma ascii_encode_str_bytes s :
  Forall (λ b, b < 128)%Z (str_bytes s) → ascii_encode (str_bytes s) = Some s.
Proof.
  intros H. unfold str_bytes.
  by rewrite ascii_encode_bytes, string_of_list_ascii_of_string.
Qed.

Section strip_fmap.
Context {A B : Type} `{EqDecision A, EqDecision B} (f : A → B) `{!Inj (=) (=) f}.

Lemma list_lstrip_fmap chars l :
  list_lstrip (f <$> chars) (f <$> l) = f <$> list_lstrip chars l.
Proof.
  induction l as [|c l IH]; simpl; [done |].
  rewrite (bool_decide_ext (f c ∈ f <$> chars) (c ∈ chars)).
  - by destruct (bool_decide (c ∈ chars)).
  - rewrite list_elem_of_fmap. split; [|by eauto].
    by intros (c' & ->%(inj f) & ?).
Qed.

Lemma list_strip_fmap chars l :
  list_strip (f <$> chars) (f <$> l) = f <$> list_strip chars l.
Proof.
  unfold list_strip, list_rstrip.
  by rewrite list_lstrip_fmap, <-fmap_reverse, list_lstrip_fmap, fmap_reverse.
Qed.

End strip_fmap.

Lemma unicode_strip_str_bytes s chars :
  unicode_strip (str_bytes s) chars = str_bytes (str_strip s chars).
Proof.
  unfold unicode_strip, str_strip, str_bytes.
  by rewrite list_ascii_of_string_of_list_ascii,
    (list_strip_fmap (λ c, Z.of_N (N_of_ascii c))).
Qed.

Lemma Forall_list_lstrip {A} `{EqDecision A} (P : A → Prop) chars l :
  Forall P l → Forall P (list_lstrip chars l).
Proof.
  induction 1 as [|c l Hc Hl IH]; simpl; [done |].
  case_bool_decide; [done | by constructor].
Qed.

Lemma Forall_list_strip {A} `{EqDecision A} (P : A → Prop) chars l :
  Forall P l → Forall P (list_strip chars l).
Proof.
  intros Hl. unfold list_strip, list_rstrip.
  by apply Forall_reverse, Forall_list_lstrip, Forall_reverse,
    Forall_list_lstrip.
Qed.

(** With an ASCII server field the constructor returns and the URL is the
    template filled in; the length of the descriptor plays no part, a slice
    never raises. *)
Lemma DepotFile_url_ascii bytes :
  is_ascii (str_slice bytes 4 (Some 8)) = true →
  ∃ self, DepotFile.__init__ bytes = Return self ∧
    DepotFile.url self =
      Return ("http://" +:+ str_strip (str_slice bytes 4 (Some 8)) padding
              +:+ ".depot.battle.net:1119/"
              +:+ str_encode_hex (str_slice bytes 8 None)
              +:+ "." +:+ str_slice bytes 0 (Some 4)).
Proof.
  intros Hascii%is_ascii_Forall. unfold DepotFile.__init__, str_decode_utf8.
  rewrite utf8_decode_ascii by done. simpl. eexists; split; [done |].
  unfold DepotFile.url, str_of_unicode; simpl.
  rewrite unicode_strip_str_bytes, ascii_encode_str_bytes; [done |].
  rewrite <-unicode_strip_str_bytes. by apply Forall_list_strip.
Qed.

(** A byte outside ASCII either stops the decoder or comes out as a code
    point outside ASCII. *)
Section non_ascii.
Local Open Scope Z_scope.

Lemma lor_ge_l (a b k : Z) : 0 ≤ k → 0 ≤ b → 2 ^ k ≤ a → 2 ^ k ≤ Z.lor a b.
Proof.
  intros Hk Hb Ha.
  assert (0 < a) by (pose proof (Z.pow_pos_nonneg 2 k); lia).
  assert (0 ≤ Z.lor a b) as Hor by (apply Z.lor_nonneg; lia).
  assert (Z.lor a b ≠ 0) by (rewrite Z.lor_eq_0_iff; lia).
  apply Z.log2_le_pow2; [lia |]. rewrite Z.log2_lor by lia.
  apply Z.log2_le_pow2 in Ha; lia.
Qed.

Lemma lor_ge_r (a b k : Z) : 0 ≤ k → 0 ≤ a → 2 ^ k ≤ b → 2 ^ k ≤ Z.lor a b.
Proof. intros. rewrite Z.lor_comm. by apply lor_ge_l. Qed.

(** A property of bytes holds when it holds of the 256 of them. *)
Lemma byte_forall (P : Z → bool) (b : Z) :
  forallb (λ n, P (Z.of_nat n)) (seq 0 256) = true →
  0 ≤ b < 256 → P b = true.
Proof.
  rewrite forallb_forall. intros H Hb.
  rewrite <-(Z2Nat.id b) by lia. apply H, in_seq. lia.
Qed.

Lemma lead_facts b0 :
  0 ≤ b0 < 256 →
  (0xC2 ≤ b0 < 0xE0 → 2 ^ 7 ≤ Z.shiftl (Z.land b0 0x1F) 6) ∧
  (0xE0 < b0 < 0xF0 → 2 ^ 7 ≤ Z.shiftl (Z.land b0 0x0F) 12) ∧
  (0xF0 < b0 < 0xF5 → 2 ^ 7 ≤ Z.shiftl (Z.land b0 0x07) 18) ∧
  0 ≤ Z.shiftl (Z.land b0 0x1F) 6 ∧
  0 ≤ Z.shiftl (Z.land b0 0x0F) 12 ∧
  0 ≤ Z.shiftl (Z.land b0 0x07) 18.
Proof.
  intros Hb. assert (lead_ok b0 = true) as H.
  { revert Hb. apply byte_forall. vm_compute. reflexivity. }
  unfold lead_ok in H. rewrite !andb_true_iff, !bool_decide_eq_true in H.
  destruct H as (((((H2 & H3) & H4) & N2) & N3) & N4).
  split_and!; try done; intros ?.
  - rewrite decide_True in H2 by done. by apply bool_decide_eq_true in H2.
  - rewrite decide_True in H3 by done. by apply bool_decide_eq_true in H3.
  - rewrite decide_True in H4 by done. by apply bool_decide_eq_true in H4.
Qed.

Lemma cont_facts b1 :
  0 ≤ b1 < 256 → is_continuation b1 = true →
  (0x90 ≤ b1 → 2 ^ 7 ≤ Z.shiftl (low6 b1) 12) ∧
  (0xA0 ≤ b1 → 2 ^ 7 ≤ Z.shiftl (low6 b1) 6) ∧
  0 ≤ low6 b1 ∧ 0 ≤ Z.shiftl (low6 b1) 6 ∧ 0 ≤ Z.shiftl (low6 b1) 12.
Proof.
  intros Hb Hcont. assert (cont_ok b1 = true) as H.
  { revert Hb. apply byte_forall. vm_compute. reflexivity. }
  unfold cont_ok in H. rewrite Hcont in H. simpl in H.
  rewrite !andb_true_iff, !bool_decide_eq_true in H.
  destruct H as ((((C12 & C6) & L) & S6) & S12).
  split_and!; try done; intros ?.
  - rewrite bool_decide_eq_true_2 in C12 by done.
    by apply bool_decide_eq_true in C12.
  - rewrite bool_decide_eq_true_2 in C6 by done.
    by apply bool_decide_eq_true in C6.
Qed.

Lemma utf8_decode_non_ascii (bs : list Z) (u : unicode) :
  Forall (λ b, 0 ≤ b < 256) bs →
  utf8_decode bs = Some u →
  Exists (λ b, 128 ≤ b) bs → Exists (λ c, 128 ≤ c) u.
Proof.
  intros Hbytes. revert u.
  induction Hbytes as [|b0 r Hb0 Hr IH]; intros u Hdec Hex; [by inversion Hex |].
  destruct (lead_facts b0 Hb0) as (H2 & H3 & H4 & N2 & N3 & N4).
  cbn [utf8_decode] in Hdec.
  destruct (decide (b0 < 0x80)).
  { destruct (utf8_decode r) as [u'|] eqn:Hu'; [|done]. injection Hdec as <-.
    apply Exists_cons in Hex as [? | Hex]; [lia |].
    apply Exists_cons_tl. by apply IH. }
  destruct (decide (b0 < 0xC2)); [done |].
  destruct (decide (b0 < 0xE0)).
  { destruct r as [|b1 r]; [done |]. inversion_clear Hr as [|?? Hb1 ?].
    destruct (is_continuation b1) eqn:Hc1; [|done].
    destruct (cont_facts b1 Hb1 Hc1) as (_ & _ & L1 & _ & _).
    destruct (utf8_decode r) as [u'|]; [|done]. injection Hdec as <-.
    apply Exists_cons_hd. apply (lor_ge_l _ _ 7); [lia | lia |].
    apply H2. lia. }
  destruct (decide (b0 < 0xF0)).
  { destruct r as [|b1 [|b2 r]]; [done.. |].
    inversion_clear Hr as [|?? Hb1 Hr']. inversion_clear Hr' as [|?? Hb2 ?].
    destruct (is_continuation b1) eqn:Hc1; [|done].
    destruct (is_continuation b2) eqn:Hc2; [|done].
    destruct (cont_facts b1 Hb1 Hc1) as (_ & C6 & L1 & S6 & _).
    destruct (cont_facts b2 Hb2 Hc2) as (_ & _ & L2 & _ & _).
    destruct (bool_decide (b0 = 0xE0 ∧ b1 < 0xA0)) eqn:Hover; [done |].
    apply bool_decide_eq_false in Hover. simpl in Hdec.
    destruct (utf8_decode r) as [u'|]; [|done]. injection Hdec as <-.
    apply Exists_cons_hd.
    assert (0 ≤ Z.lor (Z.shiftl (low6 b1) 6) (low6 b2)) by (apply Z.lor_nonneg; lia).
    destruct (decide (b0 = 0xE0)) as [->|].
    - apply (lor_ge_r _ _ 7); [lia | lia |]. apply (lor_ge_l _ _ 7); [lia | lia |].
      apply C6. lia.
    - apply (lor_ge_l _ _ 7); [lia | lia |]. apply H3. lia. }
  destruct (decide (b0 < 0xF5)); [|done].
  destruct r as [|b1 [|b2 [|b3 r]]]; [done.. |].
  inversion_clear Hr as [|?? Hb1 Hr']. inversion_clear Hr' as [|?? Hb2 Hr''].
  inversion_clear Hr'' as [|?? Hb3 ?].
  destruct (is_continuation b1) eqn:Hc1; [|done].
  destruct (is_continuation b2) eqn:Hc2; [|done].
  destruct (is_continuation b3) eqn:Hc3; [|done].
  destruct (cont_facts b1 Hb1 Hc1) as (C12 & _ & L1 & _ & S12).
  destruct (cont_facts b2 Hb2 Hc2) as (_ & _ & L2 & S6 & _).
  destruct (cont_facts b3 Hb3 Hc3) as (_ & _ & L3 & _ & _).
  destruct (bool_decide (b0 = 0xF0 ∧ b1 < 0x90)) eqn:Hover; [done |].
  apply bool_decide_eq_false in Hover.
  destruct (bool_decide (b0 = 0xF4 ∧ 0x90 ≤ b1)) eqn:Hhigh; [done |].
  simpl in Hdec.
  destruct (utf8_decode r) as [u'|]; [|done]. injection Hdec as <-.
  apply Exists_cons_hd.
  assert (0 ≤ Z.lor (Z.shiftl (low6 b2) 6) (low6 b3)) by (apply Z.lor_nonneg; lia).
  assert (0 ≤ Z.lor (Z.shiftl (low6 b1) 12) (Z.lor (Z.shiftl (low6 b2) 6) (low6 b3)))
    by (apply Z.lor_nonneg; lia).
  destruct (decide (b0 = 0xF0)) as [->|].
  - apply (lor_ge_r _ _ 7); [lia | lia |]. apply (lor_ge_l _ _ 7); [lia | lia |].
    apply C12. lia.
  - apply (lor_ge_l _ _ 7); [lia | lia |]. apply H4. lia.
Qed.

Lemma ascii_encode_non_ascii (u : unicode) :
  Exists (λ c, 128 ≤ c) u → ascii_encode u = None.
Proof.
  induction 1 as [c u Hc | c u _ IH]; cbn [ascii_encode].
  - by rewrite decide_False by lia.
  - case_decide; [by rewrite IH | done].
Qed.

End non_ascii.

Lemma Exists_list_lstrip {A} `{EqDecision A} (P : A → Prop) (chars l : list A) :
  (∀ c, P c → c ∉ chars) → Exists P l → Exists P (list_lstrip chars l).
Proof.
  intros HP. induction 1 as [c l Hc | c l Hl IH]; simpl.
  - rewrite bool_decide_eq_false_2 by (by apply HP). by apply Exists_cons_hd.
  - case_bool_decide; [exact IH | by apply Exists_cons_tl].
Qed.

Lemma Exists_list_strip {A} `{EqDecision A} (P : A → Prop) (chars l : list A) :
  (∀ c, P c → c ∉ chars) → Exists P l → Exists P (list_strip chars l).
Proof.
  intros HP Hl. unfold list_strip, list_rstrip.
  rewrite Exists_exists. setoid_rewrite elem_of_reverse. rewrite <-Exists_exists.
  apply Exists_list_lstrip; [done |].
  rewrite Exists_exists. setoid_rewrite elem_of_reverse. rewrite <-Exists_exists.
  by apply Exists_list_lstrip.
Qed.

Lemma str_bytes_range (s : string) :
  Forall (λ b, 0 ≤ b < 256)%Z (str_bytes s).
Proof.
  unfold str_bytes. apply Forall_fmap, Forall_forall. intros c _.
  pose proof (N_ascii_bounded c) as Hc. unfold compose. revert Hc.
  generalize (N_of_ascii c). intros n Hn. lia.
Qed.

Lemma is_ascii_false (s : string) :
  is_ascii s = false → Exists (λ b, 128 ≤ b)%Z (str_bytes s).
Proof.
  unfold is_ascii. induction (str_bytes s) as [|b bs IH]; simpl; [done |].
  case_bool_decide; simpl.
  - intros Hbs. by apply Exists_cons_tl, IH.
  - intros _. apply Exists_cons_hd. lia.
Qed.

(** With a server field that is not ASCII the url is never returned: the
    constructor raises, or the property does. *)
Lemma DepotFile_url_non_ascii (bytes : string) :
  is_ascii (str_slice bytes 4 (Some 8)) = false →
  DepotFile.__init__ bytes = Raise (UnicodeDecodeError "utf8") ∨
  ∃ self, DepotFile.__init__ bytes = Return self ∧
          DepotFile.url self = Raise (UnicodeEncodeError "ascii").
Proof.
  intros Hn%is_ascii_false. unfold DepotFile.__init__, str_decode_utf8.
  destruct (utf8_decode _) as [u|] eqn:Hu; [right | by left].
  simpl. eexists. split; [done |]. unfold DepotFile.url, str_of_unicode. simpl.
  rewrite ascii_encode_non_ascii; [done |].
  apply Exists_list_strip.
  - intros c Hc. change (str_bytes padding) with [0; 32]%Z.
    rewrite !not_elem_of_cons. split_and!; [lia | lia | apply not_elem_of_nil].
  - eapply utf8_decode_non_ascii; [apply str_bytes_range | done..].
Qed.

(** C2 (as amended). For every byte sequence of at least 12 bytes whose
    bytes [4:8] are ASCII, construction succeeds and the url is
    http://{server}.depot.battle.net:1119/{hash}.{type}, with the server
    bytes [4:8] without the null bytes and spaces at their ends, the hash
    bytes [8:] in lowercase hexadecimal and the type bytes [0:4].  When a
    byte of [4:8] is outside ASCII there is no url: the constructor raises
    UnicodeDecodeError, or it returns and the url raises
    UnicodeEncodeError. *)
Theorem depot_url (bytes : string) :
  12 ≤ String.length bytes →
  if is_ascii (str_slice bytes 4 (Some 8))
  then
    ∃ self, DepotFile.__init__ bytes = Return self ∧
      DepotFile.url self =
        Return ("http://" +:+ str_strip (str_slice bytes 4 (Some 8)) padding
                +:+ ".depot.battle.net:1119/"
                +:+ str_encode_hex (str_slice bytes 8 None)
                +:+ "." +:+ str_slice bytes 0 (Some 4))
  else
    DepotFile.__init__ bytes = Raise (UnicodeDecodeError "utf8") ∨
    ∃ self, DepotFile.__init__ bytes = Return self ∧
      DepotFile.url self = Raise (UnicodeEncodeError "ascii").
Proof.
  intros _. destruct (is_ascii (str_slice bytes 4 (Some 8))) eqn:Hascii.
  - by apply DepotFile_url_ascii.
  - by apply DepotFile_url_non_ascii.
Qed.

(** The scenario of the specification, through the theorem. *)
Lemma depot_url_witness :
  ∃ self, DepotFile.__init__ depot_us = Return self ∧
    DepotFile.url self = Return "http://us.depot.battle.net:1119/deadbeef.s2ma".
Proof.
  assert (12 ≤ String.length depot_us) as Hlen by (vm_compute; lia).
  pose proof (depot_url depot_us Hlen) as H.
  change (is_ascii (str_slice depot_us 4 (Some 8))) with true in H.
  destruct H as (self & Hinit & Hurl).
  exists self. split; [exact Hinit |]. rewrite Hurl. vm_compute. reflexivity.
Defined.

(** C2 (as stated) fails: twelve bytes whose server field is not UTF-8 make
    the constructor raise, and a server field outside ASCII makes the url
    raise after a construction that succeeded. *)
Lemma depot_url_non_ascii_fails :
  String.length depot_not_utf8 = 12 ∧
  DepotFile.__init__ depot_not_utf8 = Raise (UnicodeDecodeError "utf8") ∧
  String.length depot_e_acute = 12 ∧
  DepotFile.__init__ depot_e_acute ≫= DepotFile.url =
    Raise (UnicodeEncodeError "ascii").
Proof. repeat split; vm_compute; reflexivity. Qed.

(** C5 (as amended). Two DepotFiles with equal urls have equal hash values;
    they compare equal exactly when they are one and the same object, since
    the class defines no comparison. *)
Theorem depot_hash_by_url (builtin_hash : string → Z)
    (σ : gmap loc DepotFile.t) (l1 l2 : loc) (d1 d2 : DepotFile.t) :
  σ !! l1 = Some d1 → σ !! l2 = Some d2 →
  DepotFile.url d1 = DepotFile.url d2 →
  DepotFile.__hash__ builtin_hash d1 = DepotFile.__hash__ builtin_hash d2 ∧
  (object_eq l1 l2 = true ↔ l1 = l2).
Proof.
  intros _ _ Hurl. split.
  - unfold DepotFile.__hash__. by rewrite Hurl.
  - unfold object_eq. apply bool_decide_eq_true.
Qed.

Lemma depot_hash_by_url_witness :
  DepotFile.__hash__ (λ s, Z.of_nat (String.length s)) depot_us_object =
  DepotFile.__hash__ (λ s, Z.of_nat (String.length s)) depot_us_object ∧
  (object_eq 0 1 = true ↔ 0 = 1).
Proof.
  apply (depot_hash_by_url _ two_depots 0 1); vm_compute; reflexivity.
Defined.

(** C5 (as stated) fails: two descriptors with different padding give two
    objects with one url, and the two objects do not compare equal. *)
Lemma depot_equal_url_not_equal :
  DepotFile.new ∅ depot_us = Return (0, <[0 := depot_us_object]> ∅) ∧
  DepotFile.new (<[0 := depot_us_object]> ∅) depot_us_spaces =
    Return (1, two_depots) ∧
  depot_us ≠ depot_us_spaces ∧
  DepotFile.url depot_us_object =
    Return "http://us.depot.battle.net:1119/deadbeef.s2ma" ∧
  object_eq 0 1 = false.
Proof. repeat split; try (vm_compute; reflexivity). discriminate. Qed.

(** ** Graph *)

Lemma Graph_pairs_foldl (ps : list (val * val)) (g : Graph.t) :
  foldl (λ self xy, {| Graph.times := Graph.times self ++ [xy.1];
                       Graph.values := Graph.values self ++ [xy.2] |}) g ps
  = {| Graph.times := Graph.times g ++ ps.*1;
       Graph.values := Graph.values g ++ ps.*2 |}.
Proof.
  revert g. induction ps as [|p ps IH]; intros [ts vs]; simpl.
  - by rewrite !app_nil_r.
  - rewrite IH. simpl. by rewrite <-!app_assoc.
Qed.

(** C7 (as amended). A non-empty sequence of pairs takes precedence: times
    and values are its first and second components, of equal length.  With
    no pairs, or an empty sequence of them, times and values are the two
    sequences given, whatever their lengths, and they have equal length
    exactly when those two have. *)
Theorem graph_lengths (x y : list val) (xy_list : option (list (val * val))) :
  let g := Graph.__init__ x y xy_list in
  match xy_list with
  | Some (p :: ps) =>
      Graph.times g = (p :: ps).*1 ∧ Graph.values g = (p :: ps).*2 ∧
      length (Graph.times g) = length (Graph.values g)
  | _ =>
      Graph.times g = x ∧ Graph.values g = y ∧
      (length (Graph.times g) = length (Graph.values g) ↔ length x = length y)
  end.
Proof.
  destruct xy_list as [[|p ps]|]; simpl; [done | | done].
  rewrite Graph_pairs_foldl. simpl. by rewrite !length_fmap.
Qed.

(** C7 (as stated) fails for parallel sequences of different lengths. *)
Lemma graph_parallel_lengths_differ :
  length (Graph.times (Graph.__init__ [VInt 0; VInt 10; VInt 20] [VInt 5] None)) = 3 ∧
  length (Graph.values (Graph.__init__ [VInt 0; VInt 10; VInt 20] [VInt 5] None)) = 1.
Proof. split; reflexivity. Qed.

(** ** Objects *)

Lemma getattr_lookup (h : heap) (l : loc) (o : object) (name : string) :
  h !! l = Some o →
  getattr h l name =
    match __dict__ o !! name with
    | Some v => Return v
    | None =>
        match class_lookup (mro (__class__ o)) name with
        | Some v => Return v
        | None => Raise (no_attribute (class_name (__class__ o)) name)
        end
    end.
Proof. intros Hl. unfold getattr. by rewrite Hl. Qed.

Lemma setattr_lookup (h : heap) (l : loc) (c : class) (d : gmap string val)
    (name : string) (v : val) :
  h !! l = Some (Object c d) →
  bool_decide (name ∈ class_properties c) = false →
  setattr h l name v = Return (<[l := Object c (<[name := v]> d)]> h).
Proof. intros Hl Hname. unfold setattr. rewrite Hl. simpl. by rewrite Hname. Qed.

(** An assignment that returns keeps the class of the object and changes
    one entry of its dictionary. *)
Lemma setattr_Return (h h' : heap) (l : loc) (name : string) (v : val) :
  setattr h l name v = Return h' →
  ∃ c d, h !! l = Some (Object c d) ∧
         h' = <[l := Object c (<[name := v]> d)]> h.
Proof.
  unfold setattr. destruct (h !! l) as [[c d]|]; [|done]. simpl.
  case_bool_decide; [done |]. intros [= <-]. by exists c, d.
Qed.

Lemma setattrs_Return (h h' : heap) (l : loc) (c : class)
    (d : gmap string val) (updates : list (string * val)) :
  h !! l = Some (Object c d) →
  setattrs h l updates = Return h' →
  ∃ d', h' !! l = Some (Object c d') ∧
        ∀ name, name ∉ updates.*1 → d' !! name = d !! name.
Proof.
  revert h d. induction updates as [|[n v] us IH]; intros h d Hl; simpl.
  { intros [= <-]. by exists d. }
  destruct (setattr h l n v) as [h1| |] eqn:Hset; simpl; [|done..].
  apply setattr_Return in Hset as (c1 & d1 & Hl1 & ->).
  rewrite Hl in Hl1. injection Hl1 as <- <-.
  intros Hus. eapply IH in Hus as (d' & Hd' & Hsame);
    [|apply lookup_insert_eq].
  exists d'. split; [done |]. intros name [Hn Hname]%not_elem_of_cons.
  by rewrite Hsame, lookup_insert_ne.
Qed.

(** The sample heaps are what the constructors and a few assignments
    build. *)
Example bob_wins_built :
  ('(p, h) ← Player.new (VInt 1) (VStr "Bob") ∅;
   h ← setattr h p "gateway" (VStr "us");
   '(t, h) ← Team.new (VInt 1) h;
   h ← setattr h p "team" (VObj t);
   h ← setattr h t "players" (VList [VObj p]);
   setattr h t "result" (VStr "Win")) = Return bob_wins.
Proof. vm_compute. reflexivity. Qed.

Example two_teams_built :
  ('(bob, h) ← Player.new (VInt 1) (VStr "Bob") ∅;
   h ← setattr h bob "gateway" (VStr "us");
   '(alice, h) ← Player.new (VInt 2) (VStr "Alice") h;
   h ← setattr h alice "gateway" (VStr "eu");
   '(t1, h) ← Team.new (VInt 1) h;
   h ← setattr h t1 "players" (VList [VObj bob; VObj alice]);
   '(t2, h) ← Team.new (VInt 2) h;
   setattr h t2 "players" (VList [VObj alice; VObj bob])) = Return two_teams.
Proof. vm_compute. reflexivity. Qed.

(** ** Player *)

Lemma Person_init (h : heap) (l : loc) (c : class) (d : gmap string val)
    (pid name : val) :
  h !! l = Some (Object c d) →
  ∃ d', Person.__init__ pid name h l = Return (<[l := Object c d']> h) ∧
    d' = <["recorder" := VBool false]> (<["region" := VStr ""]>
      (<["is_human" := VBool false]> (<["selection_events" := VList []]>
      (<["ability_events" := VList []]> (<["camera_events" := VList []]>
      (<["events" := VList []]> (<["messages" := VList []]>
      (<["is_observer" := VBool false]> (<["name" := name]>
      (<["pid" := pid]> d)))))))))).
Proof.
  intros Hl. eexists. split; [|reflexivity]. unfold Person.__init__.
  rewrite (setattr_lookup _ _ _ _ _ _ Hl) by (by destruct c). simpl.
  repeat (erewrite setattr_lookup;
          [simpl | apply lookup_insert_eq | by destruct c];
          rewrite insert_insert_eq).
  done.
Qed.

Lemma Player_new_fresh (h : heap) (pid name : val) :
  Player.new pid name h =
    Return (fresh (dom h),
            <[fresh (dom h) := Object cls_Player (fresh_player_dict pid name)]> h).
Proof.
  unfold Player.new, construct, Player.__init__.
  destruct (Person_init (<[fresh (dom h) := Object cls_Player ∅]> h)
              (fresh (dom h)) cls_Player ∅ pid name) as (d' & -> & ->);
    [apply lookup_insert_eq |].
  simpl. erewrite setattr_lookup; [| apply lookup_insert_eq | done].
  simpl. by rewrite !insert_insert_eq.
Qed.

Lemma Player_url_no_gateway (h : heap) (l : loc) (d : gmap string val) :
  h !! l = Some (Object cls_Player d) →
  d !! "gateway" = None →
  Player.url h l = Raise (AttributeError "'Player' object has no attribute 'gateway'").
Proof.
  intros Hl Hg. unfold Player.url.
  rewrite !(getattr_lookup _ _ _ _ Hl). simpl. rewrite Hg.
  by destruct (d !! "URL_TEMPLATE").
Qed.

(** C10. A Player as its constructor leaves it has no gateway, in its
    dictionary or in its classes, and whatever a decoder assigns to it
    afterwards, as long as it assigns no gateway, reading url raises an
    AttributeError. *)
Theorem player_url_needs_gateway (h : heap) (pid name : val)
    (updates : list (string * val)) :
  "gateway" ∉ updates.*1 →
  ∃ l h', Player.new pid name h = Return (l, h') ∧
    Player.url h' l =
      Raise (AttributeError "'Player' object has no attribute 'gateway'") ∧
    ∀ h'', setattrs h' l updates = Return h'' →
      Player.url h'' l =
        Raise (AttributeError "'Player' object has no attribute 'gateway'").
Proof.
  intros Hupd. eexists _, _. split; [apply Player_new_fresh |].
  assert (fresh_player_dict pid name !! "gateway" = None) as Hfresh
    by (vm_compute; reflexivity).
  split.
  - eapply Player_url_no_gateway; [apply lookup_insert_eq | done].
  - intros h'' Hh''.
    eapply setattrs_Return in Hh'' as (d' & Hd' & Hsame);
      [|apply lookup_insert_eq].
    eapply Player_url_no_gateway; [done |]. by rewrite Hsame.
Qed.

Lemma player_url_needs_gateway_witness :
  ("gateway" ∉ [("uid", VInt 7); ("team", VNone)].*1) ∧
  ∃ l h', Player.new (VInt 1) (VStr "Bob") ∅ = Return (l, h') ∧
    Player.url h' l =
      Raise (AttributeError "'Player' object has no attribute 'gateway'") ∧
    ∀ h'', setattrs h' l [("uid", VInt 7); ("team", VNone)] = Return h'' →
      Player.url h'' l =
        Raise (AttributeError "'Player' object has no attribute 'gateway'").
Proof.
  assert ("gateway" ∉ [("uid", VInt 7); ("team", VNone)].*1) as Hupdates
    by (apply (bool_decide_unpack _); vm_compute; exact I).
  split; [exact Hupdates |].
  exact (player_url_needs_gateway ∅ (VInt 1) (VStr "Bob") _ Hupdates).
Defined.

(** C8. A Player whose team was never assigned, or is None, has the result
    "Unknown"; a Player whose team is a Team has the result of that Team,
    as the Team holds it at that moment. *)
Theorem player_result (h : heap) (self : loc) (d : gmap string val) :
  h !! self = Some (Object cls_Player d) →
  (d !! "team" = None ∨ d !! "team" = Some VNone →
   Player.result h self = Return (VStr "Unknown")) ∧
  (∀ t dt, d !! "team" = Some (VObj t) →
     h !! t = Some (Object cls_Team dt) →
     Player.result h self = getattr h t "result" ∧
     getattr h t "result" = Return (default (VStr "") (dt !! "result"))).
Proof.
  intros Hself. unfold Player.result.
  rewrite !(getattr_lookup _ _ _ _ Hself). simpl. split.
  - by intros [-> | ->].
  - intros t dt -> Ht. cbv [mbind outcome_bind truth Player.team_result].
    rewrite Ht. cbn [__class__]. split; [done |].
    rewrite (getattr_lookup _ _ _ _ Ht). simpl.
    by destruct (dt !! "result").
Qed.

Lemma player_result_witness :
  Player.result bob_alone 0 = Return (VStr "Unknown") ∧
  Player.result bob_wins 0 = Return (VStr "Win").
Proof.
  split.
  - apply (player_result bob_alone 0 (fresh_player_dict (VInt 1) (VStr "Bob")));
      [| left]; vm_compute; reflexivity.
  - assert (bob_wins !! 0 = Some (Object cls_Player bob_dict)) as H0
      by (vm_compute; reflexivity).
    assert (bob_dict !! "team" = Some (VObj 1)) as Hteam
      by (vm_compute; reflexivity).
    assert (bob_wins !! 1 = Some (Object cls_Team winners_dict)) as H1
      by (vm_compute; reflexivity).
    destruct (proj2 (player_result bob_wins 0 bob_dict H0) 1 winners_dict
                Hteam H1) as [-> ->].
    vm_compute. reflexivity.
Defined.

(** ** Team *)

(** [sorted] returns the members in lexicographic order. *)
Lemma sorted_spec (us : list string) :
  Sorted String.le (sorted us) ∧ sorted us ≡ₚ us.
Proof.
  split; [apply Sorted_merge_sort, _ | apply merge_sort_Permutation].
Qed.

Lemma sorted_Permutation (us1 us2 : list string) :
  us1 ≡ₚ us2 → sorted us1 = sorted us2.
Proof.
  intros Hp. unfold sorted. apply (Sorted_unique String.le).
  - apply Sorted_merge_sort, _.
  - apply Sorted_merge_sort, _.
  - by rewrite !merge_sort_Permutation.
Qed.

Lemma sorted_inv_Permutation (us1 us2 : list string) :
  sorted us1 = sorted us2 → us1 ≡ₚ us2.
Proof.
  intros Heq. rewrite <-(merge_sort_Permutation String.le us1),
    <-(merge_sort_Permutation String.le us2). unfold sorted in Heq.
  by rewrite Heq.
Qed.

Lemma Team_urls_players (h : heap) (self : loc) (ps : list val) :
  getattr h self "players" = Return (VList ps) →
  Team.urls h self = for_each (Team.member_url h) ps.
Proof. intros Hps. unfold Team.urls. by rewrite Hps. Qed.

Lemma Team_hash_urls (h : heap) (self : loc) (us : list string) :
  Team.urls h self = Return us →
  Team.raw_hash h self = Return (str_join "," (sorted us)) ∧
  Team.hash h self = Return (hashlib.sha256_hexdigest (str_join "," (sorted us))).
Proof. intros Hus. unfold Team.hash, Team.raw_hash. by rewrite Hus. Qed.

(** C9. The hash of a team with no players is the SHA-256 hex digest of the
    empty string. *)
Theorem team_hash_no_players (h : heap) (self : loc) :
  getattr h self "players" = Return (VList []) →
  Team.hash h self = Return (hashlib.sha256_hexdigest "") ∧
  hashlib.sha256_hexdigest "" =
    "e3b0c44298fc1c149afbf4c8996fb92427ae41e4649b934ca495991b7852b855".
Proof.
  intros Hps. split; [| vm_compute; reflexivity].
  apply (Team_hash_urls h self []). by rewrite (Team_urls_players _ _ _ Hps).
Qed.

Lemma team_hash_no_players_witness :
  Team.hash (<[0 := Object cls_Team (fresh_team_dict (VInt 1))]> ∅) 0 =
    Return (hashlib.sha256_hexdigest "") ∧
  hashlib.sha256_hexdigest "" =
    "e3b0c44298fc1c149afbf4c8996fb92427ae41e4649b934ca495991b7852b855".
Proof.
  apply (team_hash_no_players
           (<[0 := Object cls_Team (fresh_team_dict (VInt 1))]> ∅) 0).
  vm_compute. reflexivity.
Defined.

(** C3. Two teams whose players lists hold the same players in two orders
    have the same hash: the digest of the sorted urls joined by commas. *)
Theorem team_hash_order_independent (h : heap) (t1 t2 : loc)
    (ps1 ps2 : list val) (us1 : list string) :
  getattr h t1 "players" = Return (VList ps1) →
  getattr h t2 "players" = Return (VList ps2) →
  ps1 ≡ₚ ps2 →
  for_each (Team.member_url h) ps1 = Return us1 →
  ∃ digest, Team.hash h t1 = Return digest ∧ Team.hash h t2 = Return digest ∧
    digest = hashlib.sha256_hexdigest (str_join "," (sorted us1)).
Proof.
  intros Hps1 Hps2 Hperm Hus1.
  destruct (for_each_Permutation _ _ _ _ Hperm Hus1) as (us2 & Hus2 & Hus).
  eexists. split_and!; [| | reflexivity].
  - apply Team_hash_urls. by rewrite (Team_urls_players _ _ _ Hps1).
  - rewrite (sorted_Permutation _ _ Hus).
    apply Team_hash_urls. by rewrite (Team_urls_players _ _ _ Hps2).
Qed.

Lemma team_hash_order_independent_witness :
  ∃ digest, Team.hash two_teams 2 = Return digest ∧
    Team.hash two_teams 3 = Return digest ∧
    digest = hashlib.sha256_hexdigest (str_join "," (sorted [bob_url; alice_url])).
Proof.
  apply (team_hash_order_independent two_teams 2 3
           [VObj 0; VObj 1] [VObj 1; VObj 0] [bob_url; alice_url]);
    [vm_compute; reflexivity | vm_compute; reflexivity | apply perm_swap
    | vm_compute; reflexivity].
Defined.

(** Joining with commas loses nothing when no part is empty or holds a
    comma. *)
Lemma app_String (c : ascii) (s t : string) :
  String c s +:+ t = String c (s +:+ t).
Proof. reflexivity. Qed.

Lemma comma_free_String (c : ascii) (s : string) :
  comma_free (String c s) = true ↔ c ≠ ","%char ∧ comma_free s = true.
Proof.
  unfold comma_free. simpl. rewrite andb_true_iff, negb_true_iff.
  by rewrite bool_decide_eq_false.
Qed.

Lemma comma_free_app_comma (s r : string) :
  comma_free (s +:+ "," +:+ r) = false.
Proof.
  induction s as [|c s IH]; [done |].
  rewrite app_String. apply not_true_iff_false.
  rewrite comma_free_String. intros [_ H]. by rewrite IH in H.
Qed.

Lemma app_empty (t : string) : "" +:+ t = t.
Proof. reflexivity. Qed.

Lemma app_comma_inj (s1 s2 r1 r2 : string) :
  comma_free s1 = true → comma_free s2 = true →
  s1 +:+ String "," r1 = s2 +:+ String "," r2 → s1 = s2 ∧ r1 = r2.
Proof.
  revert s2. induction s1 as [|c1 s1 IH]; intros [|c2 s2] H1 H2;
    rewrite ?app_String, ?app_empty.
  - by intros [= ->].
  - intros [= <- _]. by apply comma_free_String in H2 as [? _].
  - intros [= -> _]. by apply comma_free_String in H1 as [? _].
  - apply comma_free_String in H1 as [_ H1].
    apply comma_free_String in H2 as [_ H2].
    intros [= -> Heq]. by destruct (IH _ H1 H2 Heq) as [-> ->].
Qed.

Lemma str_join_cons_ne (u : string) (us : list string) :
  u ≠ "" → str_join "," (u :: us) ≠ "".
Proof. destruct u, us; done. Qed.

Lemma str_join_comma_inj (us1 us2 : list string) :
  Forall url_like us1 → Forall url_like us2 →
  str_join "," us1 = str_join "," us2 → us1 = us2.
Proof.
  intros H1. revert us2.
  induction H1 as [|u1 us1 [Hne1 Hc1] H1 IH]; intros us2 H2 Heq.
  - destruct H2 as [|u2 us2 [Hne2 _] _]; [done |].
    by destruct (str_join_cons_ne u2 us2).
  - destruct H2 as [|u2 us2 [Hne2 Hc2] H2].
    { by destruct (str_join_cons_ne u1 us1). }
    destruct us1 as [|v1 us1], us2 as [|v2 us2].
    + simpl in Heq. by subst.
    + change (u1 = u2 +:+ "," +:+ str_join "," (v2 :: us2)) in Heq.
      by rewrite Heq, comma_free_app_comma in Hc1.
    + change (u1 +:+ "," +:+ str_join "," (v1 :: us1) = u2) in Heq.
      by rewrite <-Heq, comma_free_app_comma in Hc2.
    + change (u1 +:+ String "," (str_join "," (v1 :: us1)) =
              u2 +:+ String "," (str_join "," (v2 :: us2))) in Heq.
      apply app_comma_inj in Heq as [-> Heq]; [| done..].
      by rewrite (IH _ H2 Heq).
Qed.

(** C4 (as amended). Two memberships with the same urls, each as many times
    as in the other, have equal hashes, whatever the order of the members;
    so hashes that differ tell of urls that differ.  When no url is empty
    or holds a comma, the strings that are hashed are equal exactly when the
    two memberships have the same urls with the same multiplicities. *)
Theorem team_hash_membership (h1 h2 : heap) (t1 t2 : loc)
    (us1 us2 : list string) :
  Team.urls h1 t1 = Return us1 →
  Team.urls h2 t2 = Return us2 →
  (us1 ≡ₚ us2 → Team.hash h1 t1 = Team.hash h2 t2) ∧
  (Team.hash h1 t1 ≠ Team.hash h2 t2 → ¬ us1 ≡ₚ us2) ∧
  (Forall url_like us1 → Forall url_like us2 →
   (Team.raw_hash h1 t1 = Team.raw_hash h2 t2 ↔ us1 ≡ₚ us2)).
Proof.
  intros Hus1 Hus2.
  destruct (Team_hash_urls _ _ _ Hus1) as [Hraw1 Hhash1].
  destruct (Team_hash_urls _ _ _ Hus2) as [Hraw2 Hhash2].
  assert (us1 ≡ₚ us2 → Team.hash h1 t1 = Team.hash h2 t2) as Hsame.
  { intros Hp. by rewrite Hhash1, Hhash2, (sorted_Permutation _ _ Hp). }
  split_and!; [done | by intros Hne Hp; apply Hne, Hsame |].
  intros Hl1 Hl2. rewrite Hraw1, Hraw2. split.
  - intros [= Heq]. apply sorted_inv_Permutation, str_join_comma_inj; [| | done].
    + unfold sorted. by rewrite merge_sort_Permutation.
    + unfold sorted. by rewrite merge_sort_Permutation.
  - intros Hp. by rewrite (sorted_Permutation _ _ Hp).
Qed.

Lemma team_hash_membership_witness :
  Team.hash two_teams 2 = Team.hash two_teams 3 ∧
  (Team.raw_hash two_teams 2 = Team.raw_hash two_teams 3 ↔
   [bob_url; alice_url] ≡ₚ [alice_url; bob_url]).
Proof.
  assert (Team.urls two_teams 2 = Return [bob_url; alice_url]) as H2
    by (vm_compute; reflexivity).
  assert (Team.urls two_teams 3 = Return [alice_url; bob_url]) as H3
    by (vm_compute; reflexivity).
  destruct (team_hash_membership two_teams two_teams 2 3 _ _ H2 H3)
    as (Hsame & _ & Hraw).
  split; [apply Hsame, perm_swap |].
  apply Hraw; repeat constructor; discriminate.
Defined.

(** C4 (as stated) fails in both directions.  A url that holds a comma: the
    team of [a] and [b] and the team of [c] have different sets of urls and
    the same hash.  A member listed twice: the two teams have the same set
    of urls and different hashes. *)
Lemma team_hash_not_iff_url_set :
  compare_teams comma_scenario = Return (true, false) ∧
  compare_teams twice_scenario = Return (false, true).
Proof. split; vm_compute; reflexivity. Qed.

(** * Further properties *)

(** ** Graph: points *)

(** X1. The points of a Graph built from a non-empty sequence of pairs are
    those pairs, in order, whatever was passed as parallel sequences. *)
Theorem graph_points_of_pairs (x y : list val) (p : val * val)
    (ps : list (val * val)) :
  Graph.as_points (Graph.__init__ x y (Some (p :: ps))) = p :: ps.
Proof.
  unfold Graph.as_points, Graph.__init__. rewrite Graph_pairs_foldl.
  cbn [Graph.times Graph.values app]. apply zip_fst_snd.
Qed.

Lemma zip_fst_take {A B} (l : list A) (k : list B) :
  (zip l k).*1 = take (length k) l ∧ (zip l k).*2 = take (length l) k.
Proof.
  revert k. induction l as [|a l IH]; intros [|b k]; try (split; reflexivity).
  destruct (IH k) as [IH1 IH2]. cbn. split; f_equal; [apply IH1 | apply IH2].
Qed.

(** X2. The points of a Graph built from two parallel sequences stop at the
    end of the shorter one: there are min(len(x), len(y)) of them, their
    times are the first len(y) of x and their values the first len(x) of
    y; nothing is said or raised about the rest. *)
Theorem graph_points_parallel (x y : list val) :
  let points := Graph.as_points (Graph.__init__ x y None) in
  length points = length x `min` length y ∧
  points.*1 = take (length y) x ∧ points.*2 = take (length x) y ∧
  Graph.as_points (Graph.__init__ x y (Some [])) = points.
Proof.
  cbn. split_and!; [apply length_zip | apply zip_fst_take.. | done].
Qed.

(** ** DepotFile: layout, short descriptors, what the url keeps *)

Lemma length_list_ascii_of_string (s : string) :
  length (list_ascii_of_string s) = String.length s.
Proof. induction s as [|c s IH]; [done |]. simpl. by rewrite IH. Qed.

Lemma length_string_of_list_ascii (l : list ascii) :
  String.length (string_of_list_ascii l) = length l.
Proof. induction l as [|c l IH]; [done |]. simpl. by rewrite IH. Qed.

Lemma list_ascii_of_string_inj (s1 s2 : string) :
  list_ascii_of_string s1 = list_ascii_of_string s2 → s1 = s2.
Proof.
  intros H. by rewrite <-(string_of_list_ascii_of_string s1), H,
    string_of_list_ascii_of_string.
Qed.

Lemma str_slice_length (s : string) (start : nat) :
  String.length (str_slice s start None) = String.length s - start.
Proof.
  unfold str_slice.
  by rewrite length_string_of_list_ascii, length_drop,
    length_list_ascii_of_string.
Qed.

Lemma str_slice_short (s : string) (start : nat) (stop : option nat) :
  String.length s ≤ start → str_slice s start stop = "".
Proof.
  intros Hlen. unfold str_slice.
  rewrite drop_ge by (by rewrite length_list_ascii_of_string).
  destruct stop; [by rewrite take_nil | done].
Qed.

Lemma str_slice_all (s : string) (stop : nat) :
  String.length s ≤ stop → str_slice s 0 (Some stop) = s.
Proof.
  intros Hlen. unfold str_slice. rewrite drop_0, Nat.sub_0_r.
  rewrite take_ge by (by rewrite length_list_ascii_of_string).
  apply string_of_list_ascii_of_string.
Qed.

(** The three fields of a descriptor laid out as the code reads it. *)
Lemma str_slice_layout (a b c : string) :
  String.length a = 4 → String.length b = 4 →
  str_slice (a +:+ b +:+ c) 0 (Some 4) = a ∧
  str_slice (a +:+ b +:+ c) 4 (Some 8) = b ∧
  str_slice (a +:+ b +:+ c) 8 None = c.
Proof.
  intros Ha Hb. unfold str_slice. rewrite !list_ascii_of_string_app.
  rewrite <-length_list_ascii_of_string in Ha, Hb.
  split_and!.
  - rewrite drop_0, take_app_length' by done.
    apply string_of_list_ascii_of_string.
  - rewrite drop_app_length' by done. rewrite take_app_length' by done.
    apply string_of_list_ascii_of_string.
  - rewrite app_assoc, drop_app_length' by (rewrite length_app; lia).
    apply string_of_list_ascii_of_string.
Qed.

(** X3. A descriptor shorter than its layout does not make the constructor
    raise: with at most four bytes the server and the hash are empty, the
    bytes are the type, and the url is the template around them. *)
Theorem depot_short_descriptor (bytes : string) :
  String.length bytes ≤ 4 →
  DepotFile.__init__ bytes =
    Return {| DepotFile.server := []; DepotFile.hash := "";
              DepotFile.type := bytes |} ∧
  DepotFile.__init__ bytes ≫= DepotFile.url =
    Return ("http://.depot.battle.net:1119/." +:+ bytes).
Proof.
  intros Hlen.
  assert (DepotFile.__init__ bytes =
            Return {| DepotFile.server := []; DepotFile.hash := "";
                      DepotFile.type := bytes |}) as Hinit.
  { unfold DepotFile.__init__.
    rewrite (str_slice_short bytes 4), (str_slice_short bytes 8),
      str_slice_all by lia.
    reflexivity. }
  split; [done |]. by rewrite Hinit.
Qed.

Lemma depot_short_descriptor_witness :
  DepotFile.__init__ "s2" =
    Return {| DepotFile.server := []; DepotFile.hash := "";
              DepotFile.type := "s2" |} ∧
  DepotFile.__init__ "s2" ≫= DepotFile.url =
    Return "http://.depot.battle.net:1119/.s2".
Proof. apply (depot_short_descriptor "s2"). vm_compute. lia. Defined.

(** Hexadecimal: two digits per byte, and the bytes can be read back. *)
Lemma hex_pair (c : ascii) :
  bool_decide (hex_digit (N_of_ascii c / 16) ∈ list_ascii_of_string hex_digits)
  && bool_decide (hex_digit (N_of_ascii c mod 16) ∈ list_ascii_of_string hex_digits)
  = true ∧
  (hi ← hex_value (hex_digit (N_of_ascii c / 16));
   lo ← hex_value (hex_digit (N_of_ascii c mod 16));
   Some (ascii_of_N (16 * hi + lo))) = Some c.
Proof. destruct c as [[] [] [] [] [] [] [] []]; split; vm_compute; reflexivity. Qed.

Lemma str_decode_encode_hex (s : string) :
  str_decode_hex (str_encode_hex s) = Some s.
Proof.
  induction s as [|c s IH]; [done |]. cbn [str_encode_hex str_decode_hex].
  destruct (hex_pair c) as [_ Hc]. rewrite IH.
  destruct (hex_value (hex_digit (N_of_ascii c / 16))) as [hi|]; [|done].
  destruct (hex_value (hex_digit (N_of_ascii c mod 16))) as [lo|]; [|done].
  simpl in *. by injection Hc as ->.
Qed.

Lemma str_encode_hex_inj (s1 s2 : string) :
  str_encode_hex s1 = str_encode_hex s2 → s1 = s2.
Proof.
  intros H. apply (f_equal str_decode_hex) in H.
  rewrite !str_decode_encode_hex in H. by injection H.
Qed.

Lemma str_encode_hex_digits (s : string) :
  String.length (str_encode_hex s) = 2 * String.length s ∧
  only_of hex_digits (str_encode_hex s) = true.
Proof.
  unfold only_of. induction s as [|c s [IH1 IH2]]; [done |].
  cbn [str_encode_hex String.length list_ascii_of_string forallb].
  destruct (hex_pair c) as [Hc _]. apply andb_true_iff in Hc as [-> ->].
  rewrite IH1, IH2. split; [lia | done].
Qed.

(** X4. The hash of a DepotFile is written in the digits 0-9 and a-f, two
    for each byte of the descriptor after the eighth. *)
Theorem depot_hash_hex (bytes : string) (self : DepotFile.t) :
  DepotFile.__init__ bytes = Return self →
  String.length (DepotFile.hash self) = 2 * (String.length bytes - 8) ∧
  only_of hex_digits (DepotFile.hash self) = true.
Proof.
  unfold DepotFile.__init__.
  destruct (str_decode_utf8 _) as [u| |]; [|done..]. intros [= <-]. simpl.
  destruct (str_encode_hex_digits (str_slice bytes 8 None)) as [-> ->].
  by rewrite str_slice_length.
Qed.

Lemma depot_hash_hex_witness :
  String.length (DepotFile.hash depot_us_object) = 2 * (String.length depot_us - 8) ∧
  only_of hex_digits (DepotFile.hash depot_us_object) = true.
Proof. apply (depot_hash_hex depot_us). vm_compute. reflexivity. Defined.

(** The url can be taken apart again. *)
Lemma app_sep_first_inj {A} (c : A) (l1 l2 r1 r2 : list A) :
  c ∉ l1 → c ∉ l2 → l1 ++ c :: r1 = l2 ++ c :: r2 → l1 = l2 ∧ r1 = r2.
Proof.
  revert l2. induction l1 as [|a l1 IH]; intros [|b l2] H1 H2; simpl.
  - by intros [= ->].
  - intros [= <- _]. by apply not_elem_of_cons in H2 as [? _].
  - intros [= -> _]. by apply not_elem_of_cons in H1 as [? _].
  - apply not_elem_of_cons in H1 as [_ H1].
    apply not_elem_of_cons in H2 as [_ H2].
    intros [= -> Heq]. by destruct (IH _ H1 H2 Heq) as [-> ->].
Qed.

Lemma app_sep_last_inj {A} (c : A) (l1 l2 r1 r2 : list A) :
  c ∉ r1 → c ∉ r2 → l1 ++ c :: r1 = l2 ++ c :: r2 → l1 = l2 ∧ r1 = r2.
Proof.
  intros H1 H2 Heq. apply (f_equal reverse) in Heq.
  rewrite !reverse_app, !reverse_cons, <-!app_assoc in Heq. simpl in Heq.
  apply app_sep_first_inj in Heq as [Hr Hl];
    [| by rewrite elem_of_reverse..].
  split; by apply (inj reverse).
Qed.

Lemma hex_digits_no_slash (s : string) :
  only_of hex_digits s = true → "/"%char ∉ list_ascii_of_string s.
Proof.
  intros H%only_of_Forall Hin. rewrite Forall_forall in H.
  apply H in Hin. vm_compute in Hin.
  repeat (apply elem_of_cons in Hin as [Hin | Hin]; [discriminate |]).
  by apply elem_of_nil in Hin.
Qed.

Lemma url_template_format_inj (s1 s2 h1 h2 t1 t2 : string) :
  String.length t1 = String.length t2 →
  only_of hex_digits h1 = true → only_of hex_digits h2 = true →
  DepotFile.url_template_format s1 h1 t1 = DepotFile.url_template_format s2 h2 t2 →
  s1 = s2 ∧ h1 = h2 ∧ t1 = t2.
Proof.
  intros Hlen Hh1 Hh2 Heq. unfold DepotFile.url_template_format in Heq.
  apply (f_equal list_ascii_of_string) in Heq.
  rewrite !list_ascii_of_string_app in Heq.
  apply app_inv_head in Heq.
  set (domain := list_ascii_of_string ".depot.battle.net:1119") in *.
  assert (∀ s h t : string,
    list_ascii_of_string s ++ list_ascii_of_string ".depot.battle.net:1119/"
      ++ list_ascii_of_string h ++ list_ascii_of_string "."
      ++ list_ascii_of_string t =
    (((list_ascii_of_string s ++ domain) ++ "/"%char :: list_ascii_of_string h)
       ++ list_ascii_of_string ".") ++ list_ascii_of_string t) as Hshape.
  { intros s h t. by rewrite <-!app_assoc. }
  rewrite !Hshape in Heq. clear Hshape.
  apply app_inj_2 in Heq as [Heq Ht];
    [| by rewrite !length_list_ascii_of_string].
  apply app_inj_2 in Heq as [Heq _]; [| done].
  apply app_sep_last_inj in Heq as [Hs Hh];
    [| by apply hex_digits_no_slash..].
  apply app_inv_tail in Hs.
  split_and!; by apply list_ascii_of_string_inj.
Qed.

Lemma ascii_encode_inj (u1 u2 : unicode) (s : string) :
  ascii_encode u1 = Some s → ascii_encode u2 = Some s → u1 = u2.
Proof.
  revert u2 s. induction u1 as [|c1 u1 IH]; intros [|c2 u2] s;
    cbn [ascii_encode]; repeat case_decide; try done.
  - intros [= <-]. by destruct (ascii_encode u2).
  - destruct (ascii_encode u1); [|done]. by intros [= <-].
  - destruct (ascii_encode u1) as [s1|] eqn:H1; [|done].
    destruct (ascii_encode u2) as [s2|] eqn:H2; [|done].
    simpl. intros [= <-] [= Hc <-]. f_equal; [| by eapply IH].
    apply (f_equal N_of_ascii) in Hc.
    rewrite !N_ascii_embedding in Hc by lia. lia.
Qed.

Lemma DepotFile_url_Return (d : DepotFile.t) (u : string) :
  DepotFile.url d = Return u →
  ∃ s, ascii_encode (DepotFile.server d) = Some s ∧
       u = DepotFile.url_template_format s (DepotFile.hash d) (DepotFile.type d).
Proof.
  unfold DepotFile.url, str_of_unicode.
  destruct (ascii_encode (DepotFile.server d)) as [s|]; [|done].
  intros [= <-]. by exists s.
Qed.

Lemma DepotFile_init_Return (bytes : string) (d : DepotFile.t) :
  DepotFile.__init__ bytes = Return d →
  DepotFile.hash d = str_encode_hex (str_slice bytes 8 None) ∧
  DepotFile.type d = str_slice bytes 0 (Some 4).
Proof.
  unfold DepotFile.__init__.
  destruct (str_decode_utf8 _) as [u| |]; [|done..]. by intros [= <-].
Qed.

(** X5. For descriptors of four bytes or more, the url tells the three
    fields apart: two DepotFiles with the same url have the same type, the
    same bytes after the eighth and the same server. *)
Theorem depot_url_injective (bytes1 bytes2 : string) (d1 d2 : DepotFile.t)
    (u : string) :
  4 ≤ String.length bytes1 → 4 ≤ String.length bytes2 →
  DepotFile.__init__ bytes1 = Return d1 →
  DepotFile.__init__ bytes2 = Return d2 →
  DepotFile.url d1 = Return u → DepotFile.url d2 = Return u →
  str_slice bytes1 0 (Some 4) = str_slice bytes2 0 (Some 4) ∧
  str_slice bytes1 8 None = str_slice bytes2 8 None ∧
  DepotFile.server d1 = DepotFile.server d2.
Proof.
  intros Hlen1 Hlen2 [Hh1 Ht1]%DepotFile_init_Return
    [Hh2 Ht2]%DepotFile_init_Return
    (s1 & Hs1 & ->)%DepotFile_url_Return (s2 & Hs2 & Heq)%DepotFile_url_Return.
  rewrite Hh1, Hh2, Ht1, Ht2 in Heq.
  apply url_template_format_inj in Heq as (-> & Hh & Ht).
  - split_and!; [done | by apply str_encode_hex_inj | by eapply ascii_encode_inj].
  - unfold str_slice.
    rewrite !length_string_of_list_ascii, !length_take, !length_drop,
      !length_list_ascii_of_string. lia.
  - apply str_encode_hex_digits.
  - apply str_encode_hex_digits.
Qed.

Lemma depot_url_injective_witness :
  str_slice depot_us 0 (Some 4) = str_slice depot_us_spaces 0 (Some 4) ∧
  str_slice depot_us 8 None = str_slice depot_us_spaces 8 None ∧
  DepotFile.server depot_us_object = DepotFile.server depot_us_object.
Proof.
  apply (depot_url_injective depot_us depot_us_spaces depot_us_object
           depot_us_object "http://us.depot.battle.net:1119/deadbeef.s2ma");
    vm_compute; (reflexivity || lia).
Defined.

Lemma is_ascii_app (s1 s2 : string) :
  is_ascii (s1 +:+ s2) = is_ascii s1 && is_ascii s2.
Proof.
  unfold is_ascii, str_bytes.
  by rewrite list_ascii_of_string_app, fmap_app, forallb_app.
Qed.

Lemma only_of_padding_is_ascii (s : string) :
  only_of padding s = true → is_ascii s = true.
Proof.
  unfold only_of, is_ascii, str_bytes.
  induction (list_ascii_of_string s) as [|c l IH]; [done |]. cbn.
  intros [Hc Hl]%andb_true_iff. rewrite IH by done.
  apply bool_decide_eq_true in Hc. vm_compute in Hc.
  apply elem_of_cons in Hc as [-> | Hc]; [done |].
  apply elem_of_cons in Hc as [-> | Hc]; [done |].
  by apply elem_of_nil in Hc.
Qed.

(** X6. The layout of a descriptor: four bytes of type, four bytes of
    server in which null bytes and spaces may stand before and after an
    ASCII name, then the content hash.  The url is made of the name, the
    hash in hexadecimal and the type: the padding, its place and its kind
    leave no trace. *)
Theorem depot_layout (type pre name suf content : string) :
  String.length type = 4 →
  String.length (pre +:+ name +:+ suf) = 4 →
  only_of padding pre = true → only_of padding suf = true →
  trimmed padding name = true → is_ascii name = true →
  DepotFile.__init__ (type +:+ (pre +:+ name +:+ suf) +:+ content)
    ≫= DepotFile.url =
  Return ("http://" +:+ name +:+ ".depot.battle.net:1119/"
          +:+ str_encode_hex content +:+ "." +:+ type).
Proof.
  intros Htype Hserver Hpre Hsuf Hname Hascii.
  destruct (str_slice_layout type (pre +:+ name +:+ suf) content Htype Hserver)
    as (Ht & Hs & Hc).
  destruct (DepotFile_url_ascii (type +:+ (pre +:+ name +:+ suf) +:+ content))
    as (self & -> & Hurl).
  { rewrite Hs, !is_ascii_app, Hascii.
    by rewrite !only_of_padding_is_ascii. }
  simpl. rewrite Hurl, Ht, Hs, Hc. by rewrite str_strip_decompose.
Qed.

Lemma depot_layout_witness :
  DepotFile.__init__ ("s2ma" +:+ (" " +:+ "eu" +:+ NUL) +:+ deadbeef)
    ≫= DepotFile.url =
  Return ("http://" +:+ "eu" +:+ ".depot.battle.net:1119/"
          +:+ str_encode_hex deadbeef +:+ "." +:+ "s2ma").
Proof.
  apply (depot_layout "s2ma" " " "eu" NUL deadbeef); vm_compute; reflexivity.
Defined.

(** ** Construction of persons and teams *)

Lemma construct_fresh (c : class) (init : heap → loc → outcome heap)
    (h h1 : heap) :
  init (<[fresh (dom h) := Object c ∅]> h) (fresh (dom h)) = Return h1 →
  construct c init h = Return (fresh (dom h), h1).
Proof. intros Hinit. unfold construct. by rewrite Hinit. Qed.

Lemma fresh_not_allocated (h : heap) : h !! fresh (dom h) = None.
Proof. apply not_elem_of_dom, is_fresh. Qed.

(** X7. Constructing an Observer never fails, whatever the heap and the
    arguments: the new object is at a location that was free, it reads
    is_observer = True and is_human = True, although the constructor of
    Person had set both to False, it keeps pid and name as given, and no
    other object has changed. *)
Theorem observer_construction (h : heap) (pid name : val) :
  ∃ l h', Observer.new pid name h = Return (l, h') ∧
    h !! l = None ∧
    getattr h' l "is_observer" = Return (VBool true) ∧
    getattr h' l "is_human" = Return (VBool true) ∧
    getattr h' l "pid" = Return pid ∧
    getattr h' l "name" = Return name ∧
    ∀ l', l' ≠ l → h' !! l' = h !! l'.
Proof.
  eexists (fresh (dom h)), _. split.
  { apply construct_fresh. unfold Observer.__init__.
    destruct (Person_init (<[fresh (dom h) := Object cls_Observer ∅]> h)
                (fresh (dom h)) cls_Observer ∅ pid name) as (d' & -> & ->);
      [apply lookup_insert_eq |].
    simpl. erewrite setattr_lookup; [| apply lookup_insert_eq | done].
    simpl. erewrite setattr_lookup; [| apply lookup_insert_eq | done].
    by rewrite !insert_insert_eq. }
  split; [apply fresh_not_allocated |].
  split_and!;
    try (erewrite getattr_lookup; [| apply lookup_insert_eq]; reflexivity).
  intros l' Hl'. by rewrite lookup_insert_ne.
Qed.

(** X8. Constructing a Player never fails either: the new object reads
    is_observer = False and is_human = False, its team is the None of the
    class, so that its result is "Unknown", and no other object has
    changed. *)
Theorem player_construction (h : heap) (pid name : val) :
  ∃ l h', Player.new pid name h = Return (l, h') ∧
    h !! l = None ∧
    getattr h' l "is_observer" = Return (VBool false) ∧
    getattr h' l "is_human" = Return (VBool false) ∧
    getattr h' l "team" = Return VNone ∧
    Player.result h' l = Return (VStr "Unknown") ∧
    ∀ l', l' ≠ l → h' !! l' = h !! l'.
Proof.
  eexists _, _. split; [apply Player_new_fresh |].
  split; [apply fresh_not_allocated |].
  assert (∀ name', getattr
            (<[fresh (dom h) := Object cls_Player (fresh_player_dict pid name)]> h)
            (fresh (dom h)) name' =
          match fresh_player_dict pid name !! name' with
          | Some v => Return v
          | None =>
              match class_lookup (mro cls_Player) name' with
              | Some v => Return v
              | None => Raise (no_attribute "Player" name')
              end
          end) as Hget.
  { intros name'. erewrite getattr_lookup; [| apply lookup_insert_eq]. done. }
  split_and!; try (rewrite Hget; reflexivity).
  - unfold Player.result. rewrite Hget. reflexivity.
  - intros l' Hl'. by rewrite lookup_insert_ne.
Qed.

Lemma Team_new_fresh (h : heap) (number : val) :
  Team.new number h =
    Return (fresh (dom h),
            <[fresh (dom h) := Object cls_Team (fresh_team_dict number)]> h).
Proof.
  apply construct_fresh. unfold Team.__init__.
  erewrite setattr_lookup; [| apply lookup_insert_eq | done]. simpl.
  repeat (erewrite setattr_lookup; [simpl | apply lookup_insert_eq | done];
          rewrite insert_insert_eq).
  by rewrite insert_insert_eq.
Qed.

(** X9. Constructing a Team never fails: the new team has the number
    given, the result "Unknown", an empty lineup and no players; iterating
    over it gives nothing and its hash is the digest of the empty
    string. *)
Theorem team_construction (h : heap) (number : val) :
  ∃ l h', Team.new number h = Return (l, h') ∧
    h !! l = None ∧
    getattr h' l "number" = Return number ∧
    getattr h' l "result" = Return (VStr "Unknown") ∧
    getattr h' l "lineup" = Return (VStr "") ∧
    Team.__iter__ h' l = Return [] ∧
    Team.hash h' l =
      Return "e3b0c44298fc1c149afbf4c8996fb92427ae41e4649b934ca495991b7852b855".
Proof.
  eexists _, _. split; [apply Team_new_fresh |].
  split; [apply fresh_not_allocated |].
  assert (∀ name', getattr
            (<[fresh (dom h) := Object cls_Team (fresh_team_dict number)]> h)
            (fresh (dom h)) name' =
          match fresh_team_dict number !! name' with
          | Some v => Return v
          | None =>
              match class_lookup (mro cls_Team) name' with
              | Some v => Return v
              | None => Raise (no_attribute "Team" name')
              end
          end) as Hget.
  { intros name'. erewrite getattr_lookup; [| apply lookup_insert_eq]. done. }
  split_and!; try (rewrite Hget; reflexivity).
  - unfold Team.__iter__. rewrite Hget. reflexivity.
  - unfold Team.hash, Team.raw_hash, Team.urls. rewrite Hget.
    vm_compute. reflexivity.
Qed.

(** ** Player: url, text and result *)

Lemma Player_getattr (h : heap) (l : loc) (d : gmap string val) (name : string) :
  h !! l = Some (Object cls_Player d) →
  getattr h l name =
    match d !! name with
    | Some v => Return v
    | None =>
        match class_lookup (mro cls_Player) name with
        | Some v => Return v
        | None => Raise (no_attribute "Player" name)
        end
    end.
Proof. intros Hl. by rewrite (getattr_lookup _ _ _ _ Hl). Qed.

Lemma Player_getattr_default (h : heap) (l : loc) (d : gmap string val)
    (name : string) (v : val) :
  h !! l = Some (Object cls_Player d) →
  class_lookup (mro cls_Player) name = Some v →
  getattr h l name = Return (default v (d !! name)).
Proof.
  intros Hl Hc. rewrite (Player_getattr _ _ _ _ Hl), Hc.
  by destruct (d !! name).
Qed.

(** The url from the texts of the four fields. *)
Lemma Player_url_fields (h : heap) (l : loc) (d : gmap string val)
    (gateway : val) (g u s n : string) :
  h !! l = Some (Object cls_Player d) →
  d !! "URL_TEMPLATE" = None →
  d !! "gateway" = Some gateway →
  str gateway = Return g →
  str (default (VInt 0) (d !! "uid")) = Return u →
  str (default (VInt 0) (d !! "subregion")) = Return s →
  str (default (VStr "") (d !! "name")) = Return n →
  Player.url h l =
    Return ("http://" +:+ g +:+ ".battle.net/sc2/en/profile/" +:+ u +:+ "/"
            +:+ s +:+ "/" +:+ n +:+ "/").
Proof.
  intros Hl Htpl Hgw Hg Hu Hs Hn. unfold Player.url.
  rewrite (Player_getattr _ _ _ "URL_TEMPLATE" Hl), Htpl.
  rewrite (Player_getattr _ _ _ "gateway" Hl), Hgw.
  rewrite (Player_getattr_default _ _ _ "uid" (VInt 0) Hl) by done.
  rewrite (Player_getattr_default _ _ _ "subregion" (VInt 0) Hl) by done.
  rewrite (Player_getattr_default _ _ _ "name" (VStr "") Hl) by done.
  unfold mod_. cbn [mbind outcome_bind for_each].
  rewrite Hg, Hu, Hs, Hn. vm_compute. reflexivity.
Qed.

(** X10. The url of a Player whose gateway has been assigned: the template
    of the class filled with the gateway, the uid and the subregion in
    decimal, and the name; a uid or a subregion that was never assigned is
    the 0 of the class. *)
Theorem player_url_value (h : heap) (l : loc) (d : gmap string val)
    (g n : string) (u s : Z) :
  h !! l = Some (Object cls_Player d) →
  d !! "URL_TEMPLATE" = None →
  d !! "gateway" = Some (VStr g) →
  default (VInt 0) (d !! "uid") = VInt u →
  default (VInt 0) (d !! "subregion") = VInt s →
  default (VStr "") (d !! "name") = VStr n →
  Player.url h l =
    Return ("http://" +:+ g +:+ ".battle.net/sc2/en/profile/" +:+ pretty u
            +:+ "/" +:+ pretty s +:+ "/" +:+ n +:+ "/").
Proof.
  intros Hl Htpl Hg Hu Hs Hn.
  apply (Player_url_fields h l d (VStr g)); try done.
  - by rewrite Hu.
  - by rewrite Hs.
  - by rewrite Hn.
Qed.

Lemma player_url_value_witness :
  Player.url two_teams 0 =
    Return ("http://" +:+ "us" +:+ ".battle.net/sc2/en/profile/" +:+ pretty 0%Z
            +:+ "/" +:+ pretty 0%Z +:+ "/" +:+ "Bob" +:+ "/").
Proof.
  apply (player_url_value two_teams 0
           (<["gateway" := VStr "us"]> (fresh_player_dict (VInt 1) (VStr "Bob"))));
    vm_compute; reflexivity.
Defined.

(** X11. A Player can be printed right after its construction, before any
    gateway or race is known: the text has the pid, the name and, for the
    race, the empty string of the class. *)
Theorem player_str_after_construction (h : heap) (pid name : val)
    (spid sname : string) :
  str pid = Return spid → str name = Return sname →
  ∃ l h', Player.new pid name h = Return (l, h') ∧
    Player.__str__ h' l =
      Return ("Player " +:+ spid +:+ " - " +:+ sname +:+ " ()").
Proof.
  intros Hpid Hname. eexists _, _. split; [apply Player_new_fresh |].
  unfold Player.__str__.
  rewrite !(Player_getattr _ _ (fresh_player_dict pid name));
    [| apply lookup_insert_eq..].
  cbn [lookup]. unfold mod_.
  change (fresh_player_dict pid name !! "pid") with (Some pid).
  change (fresh_player_dict pid name !! "name") with (Some name).
  change (fresh_player_dict pid name !! "play_race") with (@None val).
  cbn [mbind outcome_bind for_each class_lookup mro].
  rewrite Hpid, Hname. vm_compute. reflexivity.
Qed.

Lemma player_str_after_construction_witness :
  ∃ l h', Player.new (VInt 1) (VStr "Bob") ∅ = Return (l, h') ∧
    Player.__str__ h' l = Return ("Player " +:+ "1" +:+ " - " +:+ "Bob" +:+ " ()").
Proof.
  apply (player_str_after_construction ∅ (VInt 1) (VStr "Bob")); reflexivity.
Defined.

(** X12. The result of a Player is "Unknown" for every team that is false,
    not only for None: False, 0, the empty string and the empty list give
    it too. *)
Theorem player_result_false_team (h : heap) (self : loc)
    (d : gmap string val) (team : val) :
  h !! self = Some (Object cls_Player d) →
  d !! "team" = Some team →
  team ∈ [VNone; VBool false; VInt 0; VStr ""; VList []] →
  Player.result h self = Return (VStr "Unknown").
Proof.
  intros Hself Hteam Hin. unfold Player.result.
  rewrite !(Player_getattr _ _ _ "team" Hself), Hteam.
  repeat (apply elem_of_cons in Hin as [-> | Hin]; [reflexivity |]).
  by apply elem_of_nil in Hin.
Qed.

Lemma player_result_false_team_witness :
  Player.result
    (<[0 := Object cls_Player
              (<["team" := VInt 0]> (fresh_player_dict (VInt 1) (VStr "Bob")))]> ∅)
    0 = Return (VStr "Unknown").
Proof.
  eapply (player_result_false_team _ 0 _ (VInt 0));
    [vm_compute; reflexivity | vm_compute; reflexivity |].
  apply elem_of_cons; right. apply elem_of_cons; right.
  apply elem_of_cons; left. reflexivity.
Defined.



(** ** Observer: text *)

(** X14. An Observer prints as "Player pid - name", under the same word as
    a Player, for every pid and name that [str] can render. *)
Theorem observer_str_after_construction (h : heap) (pid name : val)
    (spid sname : string) :
  str pid = Return spid → str name = Return sname →
  ∃ l h', Observer.new pid name h = Return (l, h') ∧
    Observer.__str__ h' l = Return ("Player " +:+ spid +:+ " - " +:+ sname).
Proof.
  intros Hpid Hname. eexists (fresh (dom h)), _. split.
  { unfold Observer.new, construct, Observer.__init__.
    destruct (Person_init (<[fresh (dom h) := Object cls_Observer ∅]> h)
                (fresh (dom h)) cls_Observer ∅ pid name) as (d' & -> & ->);
      [apply lookup_insert_eq |].
    simpl. erewrite setattr_lookup; [| apply lookup_insert_eq | done].
    simpl. erewrite setattr_lookup; [| apply lookup_insert_eq | done].
    simpl. reflexivity. }
  unfold Observer.__str__.
  erewrite !getattr_lookup; [| apply lookup_insert_eq..].
  cbn [__dict__].
  match goal with
  | |- context [?m !! "pid"] => change (m !! "pid") with (Some pid)
  end.
  match goal with
  | |- context [?m !! "name"] => change (m !! "name") with (Some name)
  end.
  cbn [mbind outcome_bind]. by rewrite Hpid, Hname.
Qed.

Lemma observer_str_after_construction_witness :
  ∃ l h', Observer.new (VInt 3) (VStr "Eve") ∅ = Return (l, h') ∧
    Observer.__str__ h' l = Return ("Player " +:+ "3" +:+ " - " +:+ "Eve").
Proof.
  apply (observer_str_after_construction ∅ (VInt 3) (VStr "Eve")); reflexivity.
Defined.

(** ** Team: members without a url, the shape of the hash *)

Lemma for_each_Raise {A B} (f : A → outcome B) (xs1 xs2 : list A) (x : A)
    (ys1 : list B) (e : exn) :
  for_each f xs1 = Return ys1 → f x = Raise e →
  for_each f (xs1 ++ x :: xs2) = Raise e.
Proof.
  revert ys1. induction xs1 as [|x1 xs1 IH]; intros ys1; simpl.
  - intros _ ->. done.
  - destruct (f x1) as [y1| |]; simpl; [|done..].
    destruct (for_each f xs1) as [ys| |] eqn:Hxs; simpl; [|done..].
    intros _ Hx. by rewrite (IH ys eq_refl Hx).
Qed.

(** X15. A team cannot be hashed while one of its players has no gateway:
    when the members before it have urls, the AttributeError of that player
    is what hash raises. *)
Theorem team_hash_member_without_gateway (h : heap) (self p : loc)
    (ps1 ps2 : list val) (us1 : list string) (d : gmap string val) :
  getattr h self "players" = Return (VList (ps1 ++ VObj p :: ps2)) →
  for_each (Team.member_url h) ps1 = Return us1 →
  h !! p = Some (Object cls_Player d) →
  d !! "gateway" = None →
  Team.hash h self =
    Raise (AttributeError "'Player' object has no attribute 'gateway'").
Proof.
  intros Hps Hus1 Hp Hg. unfold Team.hash, Team.raw_hash, Team.urls.
  rewrite Hps. cbn [mbind outcome_bind].
  erewrite for_each_Raise; [done | done |].
  unfold Team.member_url. rewrite Hp. cbn [__class__].
  by eapply Player_url_no_gateway.
Qed.

Lemma team_hash_member_without_gateway_witness :
  Team.hash bob_and_newcomer 2 =
    Raise (AttributeError "'Player' object has no attribute 'gateway'").
Proof.
  apply (team_hash_member_without_gateway bob_and_newcomer 2 1
           [VObj 0] [] [bob_url] (fresh_player_dict (VInt 2) (VStr "Carol")));
    vm_compute; reflexivity.
Defined.

(** X16. An Observer among the players of a team makes hash raise: an
    Observer has no url, unless one was assigned to it. *)
Theorem team_hash_observer_member (h : heap) (self p : loc)
    (ps1 ps2 : list val) (us1 : list string) (d : gmap string val) :
  getattr h self "players" = Return (VList (ps1 ++ VObj p :: ps2)) →
  for_each (Team.member_url h) ps1 = Return us1 →
  h !! p = Some (Object cls_Observer d) →
  d !! "url" = None →
  Team.hash h self =
    Raise (AttributeError "'Observer' object has no attribute 'url'").
Proof.
  intros Hps Hus1 Hp Hu. unfold Team.hash, Team.raw_hash, Team.urls.
  rewrite Hps. cbn [mbind outcome_bind].
  erewrite for_each_Raise; [done | done |].
  unfold Team.member_url. rewrite Hp. cbn [__class__].
  rewrite (getattr_lookup _ _ _ _ Hp). cbn [__dict__]. by rewrite Hu.
Qed.

Lemma team_hash_observer_member_witness :
  Team.hash team_with_observer 1 =
    Raise (AttributeError "'Observer' object has no attribute 'url'").
Proof.
  eapply (team_hash_observer_member team_with_observer 1 0 [] [] []);
    vm_compute; reflexivity.
Defined.

(** The digest is written in hexadecimal digits. *)
Lemma hex_digit_in (n : N) :
  hex_digit n ∈ list_ascii_of_string hex_digits.
Proof.
  apply (bool_decide_unpack _).
  destruct n as [|p]; [reflexivity |].
  do 4 (destruct p as [p|p|]; try reflexivity).
Qed.

Lemma only_of_app (chars s1 s2 : string) :
  only_of chars (s1 +:+ s2) = only_of chars s1 && only_of chars s2.
Proof. unfold only_of. by rewrite list_ascii_of_string_app, forallb_app. Qed.

Lemma sha256_hexdigest_digits (s : string) :
  only_of hex_digits (hashlib.sha256_hexdigest s) = true.
Proof.
  unfold hashlib.sha256_hexdigest.
  induction (foldl hashlib.compress hashlib.H0 _) as [|w H IH]; [done |].
  cbn [foldr]. rewrite only_of_app, IH, andb_true_r.
  unfold hashlib.word_hex, only_of.
  rewrite list_ascii_of_string_of_list_ascii, forallb_forall.
  intros c (i & -> & _)%list_elem_of_In%list_elem_of_fmap.
  apply bool_decide_eq_true, hex_digit_in.
Qed.

(** X17. Whenever hash returns, it returns 64 characters out of 0-9 and
    a-f: 256 bits in lowercase hexadecimal. *)
Theorem team_hash_shape (h : heap) (self : loc) (digest : string) :
  Team.hash h self = Return digest →
  String.length digest = 64 ∧ only_of hex_digits digest = true.
Proof.
  unfold Team.hash. destruct (Team.raw_hash h self) as [raw| |]; [|done..].
  intros [= <-]. split;
    [apply sha256_hexdigest_length | apply sha256_hexdigest_digits].
Qed.

Lemma team_hash_shape_witness :
  String.length "d6cf4580b65922d8f43fd16d4ec6264e2174bf890dba1a37a21956450236097e" = 64 ∧
  only_of hex_digits
    "d6cf4580b65922d8f43fd16d4ec6264e2174bf890dba1a37a21956450236097e" = true.
Proof. apply (team_hash_shape two_teams 2). vm_compute. reflexivity. Defined.

(** ** Team: players whose fields hold no comma *)

Lemma comma_free_app (s1 s2 : string) :
  comma_free (s1 +:+ s2) = comma_free s1 && comma_free s2.
Proof. unfold comma_free. by rewrite list_ascii_of_string_app, forallb_app. Qed.

Lemma pretty_N_go_comma_free (x : N) (s : string) :
  comma_free s = true → comma_free (pretty_N_go x s) = true.
Proof.
  revert s. induction (N.lt_wf_0 x) as [x _ IH]; intros s Hs.
  destruct (decide (x = 0)%N) as [-> | Hx]; [by rewrite pretty_N_go_0 |].
  rewrite pretty_N_go_step by lia. apply IH.
  - apply N.div_lt; lia.
  - apply comma_free_String. split; [| done].
    unfold pretty_N_char. by repeat case_match.
Qed.

Lemma pretty_Z_comma_free (z : Z) : comma_free (pretty z) = true.
Proof.
  assert (∀ p : positive, comma_free (pretty p) = true) as Hp.
  { intros p. unfold pretty, pretty_positive, pretty, pretty_N.
    case_decide; [done | by apply pretty_N_go_comma_free]. }
  destruct z as [|p|p]; [done | apply Hp |].
  change (pretty (Z.neg p)) with ("-" +:+ pretty p).
  by rewrite comma_free_app, Hp.
Qed.

(** The url of a plain player is not empty and holds no comma. *)
Lemma plain_player_url (h : heap) (p : val) :
  plain_player h p → ∃ u, Team.member_url h p = Return u ∧ url_like u.
Proof.
  intros (l & d & g & n & u & s & -> & Hl & Htpl & Hg & Hgc & Hn & Hnc & Hu & Hs).
  eexists. split.
  - unfold Team.member_url. rewrite Hl. cbn [__class__].
    apply (Player_url_fields h l d (VStr g)); try done.
    + by rewrite Hu.
    + by rewrite Hs.
    + by rewrite Hn.
  - split; [done |].
    rewrite !comma_free_app, Hgc, Hnc, !pretty_Z_comma_free. done.
Qed.

Lemma plain_players_urls (h : heap) (ps : list val) :
  Forall (plain_player h) ps →
  ∃ us, for_each (Team.member_url h) ps = Return us ∧ Forall url_like us.
Proof.
  induction 1 as [|p ps Hp _ (us & Hus & Hlike)].
  - by exists [].
  - destruct (plain_player_url h p Hp) as (u & Hu & Hulike).
    exists (u :: us). simpl. rewrite Hu, Hus. by split; [| constructor].
Qed.

(** X18. Two teams of plain players, that is of Players with a gateway and
    a name that are strings without a comma, an integer uid and subregion
    and the template of the class: both can be hashed, and the strings
    that are hashed are equal exactly when the two teams have the same
    urls, each as many times in one as in the other. *)
Theorem team_raw_hash_plain_players (h1 h2 : heap) (t1 t2 : loc)
    (ps1 ps2 : list val) :
  getattr h1 t1 "players" = Return (VList ps1) →
  getattr h2 t2 "players" = Return (VList ps2) →
  Forall (plain_player h1) ps1 → Forall (plain_player h2) ps2 →
  ∃ us1 us2 digest1 digest2,
    Team.urls h1 t1 = Return us1 ∧ Team.urls h2 t2 = Return us2 ∧
    Team.hash h1 t1 = Return digest1 ∧ Team.hash h2 t2 = Return digest2 ∧
    (Team.raw_hash h1 t1 = Team.raw_hash h2 t2 ↔ us1 ≡ₚ us2).
Proof.
  intros Hps1 Hps2 (us1 & Hus1 & Hl1)%plain_players_urls
    (us2 & Hus2 & Hl2)%plain_players_urls.
  rewrite <-(Team_urls_players _ _ _ Hps1) in Hus1.
  rewrite <-(Team_urls_players _ _ _ Hps2) in Hus2.
  destruct (Team_hash_urls _ _ _ Hus1) as [Hraw1 Hhash1].
  destruct (Team_hash_urls _ _ _ Hus2) as [Hraw2 Hhash2].
  eexists us1, us2, _, _. split_and!; [done.. |].
  rewrite Hraw1, Hraw2. split.
  - intros [= Heq]. apply sorted_inv_Permutation, str_join_comma_inj; [| | done].
    + unfold sorted. by rewrite merge_sort_Permutation.
    + unfold sorted. by rewrite merge_sort_Permutation.
  - intros Hp. by rewrite (sorted_Permutation _ _ Hp).
Qed.

Lemma team_raw_hash_plain_players_witness :
  ∃ us1 us2 digest1 digest2,
    Team.urls two_teams 2 = Return us1 ∧ Team.urls two_teams 3 = Return us2 ∧
    Team.hash two_teams 2 = Return digest1 ∧
    Team.hash two_teams 3 = Return digest2 ∧
    (Team.raw_hash two_teams 2 = Team.raw_hash two_teams 3 ↔ us1 ≡ₚ us2).
Proof.
  assert (plain_player two_teams (VObj 0)) as Hbob.
  { exists 0, (<["gateway" := VStr "us"]>
                 (fresh_player_dict (VInt 1) (VStr "Bob"))),
      "us", "Bob", 0%Z, 0%Z.
    split_and!; vm_compute; reflexivity. }
  assert (plain_player two_teams (VObj 1)) as Halice.
  { exists 1, alice_dict, "eu", "Alice", 0%Z, 0%Z.
    split_and!; vm_compute; reflexivity. }
  apply (team_raw_hash_plain_players two_teams two_teams 2 3
           [VObj 0; VObj 1] [VObj 1; VObj 0]);
    [vm_compute; reflexivity | vm_compute; reflexivity
    | by repeat constructor | by repeat constructor].
Defined.

(** ** Attribute: unknown ids, the keys that can be reached, text *)

(** X19. For a string id that the registry does not have, the constructor
    raises the ValueError with the id in its message, whatever the raw
    value: the value is not looked at. *)
Theorem attribute_unknown_str_id (LOBBY_PROPERTIES : Attribute.registry)
    (header player : val) (s value : string) :
  LOBBY_PROPERTIES !! Attribute.KStr s = None →
  Attribute.new LOBBY_PROPERTIES header (Attribute.KStr s) player value =
    Raise (ValueError ("Unknown attribute id: " +:+ s)).
Proof.
  intros Hid. unfold Attribute.new, Attribute.__init__. by rewrite Hid.
Qed.

Lemma attribute_unknown_str_id_witness :
  Attribute.new sample_registry VNone (Attribute.KStr "color") VNone "nmuH" =
    Raise (ValueError ("Unknown attribute id: " +:+ "color")).
Proof.
  apply (attribute_unknown_str_id sample_registry). vm_compute. reflexivity.
Defined.

Lemma trimmed_list (chars : string) (l : list ascii) :
  (∀ a, head l = Some a → a ∉ list_ascii_of_string chars) →
  (∀ b, last l = Some b → b ∉ list_ascii_of_string chars) →
  trimmed chars (string_of_list_ascii l) = true.
Proof.
  intros Hhd Hlast. unfold trimmed. rewrite list_ascii_of_string_of_list_ascii.
  destruct (head l) as [a|] eqn:Ha; [|done].
  destruct (last l) as [b|] eqn:Hb; [|done].
  rewrite !bool_decide_eq_false_2; [done | by apply Hlast | by apply Hhd].
Qed.

Lemma head_reverse {A} (l : list A) : head (reverse l) = last l.
Proof.
  induction l as [|a l IH] using rev_ind; [done |].
  by rewrite reverse_snoc, last_snoc.
Qed.

Lemma last_reverse {A} (l : list A) : last (reverse l) = head l.
Proof. by rewrite <-head_reverse, reverse_involutive. Qed.

Lemma code_trimmed (value : string) :
  trimmed padding (str_reverse (str_strip value padding)) = true.
Proof.
  unfold str_reverse, str_strip. rewrite list_ascii_of_string_of_list_ascii.
  destruct (list_strip_split (list_ascii_of_string padding)
              (list_ascii_of_string value))
    as (pre & suf & _ & _ & _ & Hhd & Hlast).
  apply trimmed_list; intros c.
  - rewrite head_reverse. apply Hlast.
  - rewrite last_reverse. apply Hhd.
Qed.

(** X20. The value of an Attribute always comes from a table key that
    neither starts nor ends with a null byte or a space: an entry under
    another key is never decoded, whatever the raw value. *)
Theorem attribute_value_from_trimmed_key (LOBBY_PROPERTIES : Attribute.registry)
    (header : val) (attr_id : Attribute.key) (player : val) (value : string)
    (name : string) (table : gmap string val) (self : gmap string val) :
  LOBBY_PROPERTIES !! attr_id = Some (name, table) →
  Attribute.new LOBBY_PROPERTIES header attr_id player value = Return self →
  ∃ k v, trimmed padding k = true ∧ table !! k = Some v ∧
         self !! "value" = Some v.
Proof.
  intros Hid. rewrite (Attribute_new_known _ _ _ _ _ _ _ Hid).
  destruct (table !! _) as [v|] eqn:Hv; [|done]. intros [= <-].
  exists (str_reverse (str_strip value padding)), v.
  split_and!; [apply code_trimmed | done |].
  unfold Attribute.decoded. apply lookup_insert_eq.
Qed.

Lemma attribute_value_from_trimmed_key_witness :
  ∃ k v, trimmed padding k = true ∧
    ({[ "T1" := VStr "Team 1"; "T2" := VStr "Team 2" ]} : gmap string val) !! k
      = Some v ∧
    Attribute.decoded VNone (Attribute.KInt 2002) VNone "Teams1v1" (VStr "Team 1")
      !! "value" = Some v.
Proof.
  apply (attribute_value_from_trimmed_key sample_registry VNone
           (Attribute.KInt 2002) VNone padded_T1 "Teams1v1");
    vm_compute; reflexivity.
Defined.

Lemma app_empty_r (s : string) : s +:+ "" = s.
Proof. induction s as [|c s IH]; [done |]. by rewrite app_String, IH. Qed.

Lemma str_mod_attribute (a b c : string) :
  str_mod "[%s] %s: %s" [a; b; c] =
    Return ("[" +:+ a +:+ "] " +:+ b +:+ ": " +:+ c).
Proof.
  change (str_mod "[%s] %s: %s" [a; b; c])
    with (Return ("[" +:+ a +:+ "] " +:+ b +:+ ": " +:+ c +:+ "")).
  by rewrite app_empty_r.
Qed.

(** X21. The text of a decoded Attribute is "[player] name: value", with the
    display name of the registry and the entry of the table; an attribute
    of the whole lobby, whose player is None, starts with "[None]". *)
Theorem attribute_str (LOBBY_PROPERTIES : Attribute.registry)
    (header : val) (attr_id : Attribute.key) (player : val) (value : string)
    (name : string) (table : gmap string val) (v : val) (sp sv : string) :
  LOBBY_PROPERTIES !! attr_id = Some (name, table) →
  table !! str_reverse (str_strip value padding) = Some v →
  str player = Return sp → str v = Return sv →
  Attribute.new LOBBY_PROPERTIES header attr_id player value
    ≫= Attribute.__str__ =
  Return ("[" +:+ sp +:+ "] " +:+ name +:+ ": " +:+ sv).
Proof.
  intros Hid Hv Hsp Hsv. rewrite (Attribute_new_known _ _ _ _ _ _ _ Hid), Hv.
  cbn [mbind outcome_bind]. unfold Attribute.__str__, Attribute.getattr.
  change (Attribute.decoded header attr_id player name v !! "player")
    with (Some player).
  change (Attribute.decoded header attr_id player name v !! "name")
    with (Some (VStr name)).
  change (Attribute.decoded header attr_id player name v !! "value")
    with (Some v).
  unfold mod_. cbn [mbind outcome_bind for_each str].
  rewrite Hsp, Hsv. cbn [mbind outcome_bind]. apply str_mod_attribute.
Qed.

Lemma attribute_str_witness :
  Attribute.new sample_registry VNone (Attribute.KInt 2002) VNone padded_T1
    ≫= Attribute.__str__ =
  Return ("[" +:+ "None" +:+ "] " +:+ "Teams1v1" +:+ ": " +:+ "Team 1").
Proof.
  apply (attribute_str sample_registry VNone (Attribute.KInt 2002) VNone
           padded_T1 "Teams1v1"
           {[ "T1" := VStr "Team 1"; "T2" := VStr "Team 2" ]} (VStr "Team 1"));
    vm_compute; reflexivity.
Defined.

(** ** PlayerSummary: get_stats *)

(** X22. get_stats reads stats_pretty_names, which the class does not
    define and the constructor does not set.  Without it, get_stats
    returns the empty string while stats is empty, as it is after
    construction, and raises an AttributeError as soon as stats has an
    entry. *)
Theorem get_stats_without_pretty_names (self : gmap string PlayerSummary.attr) :
  self !! "stats_pretty_names" = None →
  (PlayerSummary.getattr self "stats" = Return (PlayerSummary.Dict []) →
   PlayerSummary.get_stats self = Return "") ∧
  (∀ k v items,
     PlayerSummary.getattr self "stats" =
       Return (PlayerSummary.Dict ((k, v) :: items)) →
     PlayerSummary.get_stats self =
       Raise (AttributeError
                "PlayerSummary instance has no attribute 'stats_pretty_names'")).
Proof.
  intros Hnames. split.
  - intros Hstats. unfold PlayerSummary.get_stats. by rewrite Hstats.
  - intros k v items Hstats. unfold PlayerSummary.get_stats. rewrite Hstats.
    cbn [mbind outcome_bind]. rewrite fmap_cons.
    cbn [PlayerSummary.get_stats_loop fst].
    unfold PlayerSummary.get_stats_step.
    assert (PlayerSummary.getattr self "stats_pretty_names" =
              Raise (AttributeError
                "PlayerSummary instance has no attribute 'stats_pretty_names'"))
      as -> by (unfold PlayerSummary.getattr; by rewrite Hnames).
    reflexivity.
Qed.

Lemma get_stats_without_pretty_names_witness :
  PlayerSummary.get_stats (PlayerSummary.__init__ (VInt 1)) = Return "" ∧
  PlayerSummary.get_stats
    (<["stats" := PlayerSummary.Dict [("apm", VInt 120)]]>
       (PlayerSummary.__init__ (VInt 1))) =
    Raise (AttributeError
             "PlayerSummary instance has no attribute 'stats_pretty_names'").
Proof.
  split.
  - apply (get_stats_without_pretty_names (PlayerSummary.__init__ (VInt 1)));
      vm_compute; reflexivity.
  - assert (<["stats" := PlayerSummary.Dict [("apm", VInt 120)]]>
              (PlayerSummary.__init__ (VInt 1)) !! "stats_pretty_names" = None)
      as Hnames by (vm_compute; reflexivity).
    apply (proj2 (get_stats_without_pretty_names _ Hnames) "apm" (VInt 120) []).
    vm_compute. reflexivity.
Defined.
